(** * Session lifecycle of the fiber session middleware

    A shallow embedding of [middleware/session/session.go]: the pooled
    [Session] object, its lifecycle methods ([Destroy], [Regenerate],
    [Save]) and the cookie directives they emit, followed by the
    properties of the lifecycle that the specification states.

    Go pointers are heap addresses; the [*Session] and [*fiber.Ctx]
    objects live in finite maps of the world state, so that the object a
    caller still holds after [Save] released it and the object sitting in
    the pool are one and the same.  A nil dereference is a [Panic]. *)

From Stdlib Require Import ZArith String Ascii List Lia.
From Stdlib Require Strings.Byte.
From Stdlib Require Import Floats.SpecFloat.
From stdpp Require Import base option list gmap strings.

Local Open Scope Z_scope.
Local Open Scope string_scope.

(** Heap addresses. *)
Abbreviation loc := positive.

(** ** time: [time.Duration] and [time.Time]

    A [Duration] is an int64 count of nanoseconds.  A [Time] is kept as
    the count of nanoseconds since a fixed origin, which is all the
    session code uses of it ([Now] and [Add]). *)
Module time.

Definition Duration := Z.
Definition Time := Z.

Definition Second : Duration := 1000000000.
Definition Minute : Duration := 60 * Second.

Definition Add (t : Time) (d : Duration) : Time := t + d.

(** binary64, as [float64]. *)
Definition float64 := spec_float.
Definition prec : Z := 53.
Definition emax : Z := 1024.

(** The conversion [float64(n)] of an integer. *)
Definition float64_of_int (n : Z) : float64 :=
  binary_normalize prec emax n 0 false.

(** [func (d Duration) Seconds() float64]:
    [sec := d / Second; nsec := d % Second;
     return float64(sec) + float64(nsec)/1e9]
    with Go's truncating integer division. *)
Definition Seconds (d : Duration) : float64 :=
  let sec := Z.quot d Second in
  let nsec := Z.rem d Second in
  SFadd prec emax (float64_of_int sec)
    (SFdiv prec emax (float64_of_int nsec) (float64_of_int 1000000000)).

(** The conversion [int(f)] of a finite float: the fraction is
    discarded (truncation toward zero).  Infinities and NaN are never
    produced by [Seconds]; they are sent to the value amd64 yields. *)
Definition int_of_float64 (f : float64) : Z :=
  match f with
  | S754_zero _ => 0
  | S754_finite s m e =>
      let a := match e with
               | Z0 => Zpos m
               | Zpos _ => Z.shiftl (Zpos m) e
               | Zneg _ => Z.shiftr (Zpos m) (- e)
               end in
      if s then - a else a
  | S754_infinity _ | S754_nan => - 2 ^ 63
  end.

End time.

(** ** fasthttp: the cookie handed to the response, and header cookies

    fasthttp is an external library.  A [Cookie] is the cookie object as
    its setters leave it; header cookies are the key/value argument lists
    of fasthttp, with its [delAllArgs] and [setArg]. *)
Module fasthttp.

Inductive CookieSameSite :=
| CookieSameSiteDisabled
| CookieSameSiteDefaultMode
| CookieSameSiteLaxMode
| CookieSameSiteStrictMode
| CookieSameSiteNoneMode.

Record Cookie := mkCookie {
  key : string;
  value : string;
  path : string;
  domain : string;
  maxAge : Z;
  expire : option time.Time;   (* None: the zero time, no expiry set *)
  secure : bool;
  httpOnly : bool;
  sameSite : CookieSameSite
}.

(** [AcquireCookie()]: a cookie in its reset state. *)
Definition AcquireCookie : Cookie :=
  mkCookie EmptyString EmptyString EmptyString EmptyString 0 None
           false false CookieSameSiteDisabled.

Definition SetKey (c : Cookie) (k : string) : Cookie :=
  mkCookie k (value c) (path c) (domain c) (maxAge c) (expire c)
           (secure c) (httpOnly c) (sameSite c).
Definition SetValue (c : Cookie) (v : string) : Cookie :=
  mkCookie (key c) v (path c) (domain c) (maxAge c) (expire c)
           (secure c) (httpOnly c) (sameSite c).
(** [SetPath] stores [normalizePath(path)], not the path it is given.
    The normaliser is fasthttp's own and is taken as given. *)
Definition SetPath (normalizePath : string -> string) (c : Cookie) (p : string)
  : Cookie :=
  mkCookie (key c) (value c) (normalizePath p) (domain c) (maxAge c) (expire c)
           (secure c) (httpOnly c) (sameSite c).
Definition SetDomain (c : Cookie) (d : string) : Cookie :=
  mkCookie (key c) (value c) (path c) d (maxAge c) (expire c)
           (secure c) (httpOnly c) (sameSite c).
Definition SetMaxAge (c : Cookie) (seconds : Z) : Cookie :=
  mkCookie (key c) (value c) (path c) (domain c) seconds (expire c)
           (secure c) (httpOnly c) (sameSite c).
Definition SetExpire (c : Cookie) (t : time.Time) : Cookie :=
  mkCookie (key c) (value c) (path c) (domain c) (maxAge c) (Some t)
           (secure c) (httpOnly c) (sameSite c).
Definition SetSecure (c : Cookie) (b : bool) : Cookie :=
  mkCookie (key c) (value c) (path c) (domain c) (maxAge c) (expire c)
           b (httpOnly c) (sameSite c).
Definition SetHTTPOnly (c : Cookie) (b : bool) : Cookie :=
  mkCookie (key c) (value c) (path c) (domain c) (maxAge c) (expire c)
           (secure c) b (sameSite c).
(** [SetSameSite]: [c.sameSite = mode], and
    [if mode == CookieSameSiteNoneMode { c.SetSecure(true) }]. *)
Definition SetSameSite (c : Cookie) (m : CookieSameSite) : Cookie :=
  let c := mkCookie (key c) (value c) (path c) (domain c) (maxAge c) (expire c)
                    (secure c) (httpOnly c) m in
  match m with
  | CookieSameSiteNoneMode => SetSecure c true
  | _ => c
  end.

(** [delAllArgs]:
    [for i, n := 0, len(args); i < n; i++ {
       kv := &args[i]
       if key == string(kv.key) {
         tmp := *kv; copy(args[i:], args[i+1:]); n--;
         args[n] = tmp; args = args[:n] } }]
    An entry stored under [k] is removed and the entries behind it move
    one place forward; the index then advances all the same, so the entry
    that moved into the freed place is kept without being looked at. *)
Fixpoint delAllArgs {A : Type} (args : list (string * A)) (k : string)
  : list (string * A) :=
  match args with
  | [] => []
  | (k', a) :: rest =>
      if String.eqb k k' then
        match rest with
        | [] => []
        | skipped :: rest' => skipped :: delAllArgs rest' k
        end
      else (k', a) :: delAllArgs rest k
  end.

(** [setArg]: the first entry stored under [k] is overwritten; when
    there is none the entry is appended. *)
Fixpoint setArg {A : Type} (args : list (string * A)) (k : string) (a : A)
  : list (string * A) :=
  match args with
  | [] => [(k, a)]
  | (k', a') :: rest =>
      if String.eqb k k' then (k', a) :: rest
      else (k', a') :: setArg rest k a
  end.

(** The first entry stored under [k], as [peekArg] reads it. *)
Fixpoint peekArg {A : Type} (args : list (string * A)) (k : string)
  : option A :=
  match args with
  | [] => None
  | (k', a) :: rest => if String.eqb k k' then Some a else peekArg rest k
  end.

End fasthttp.

(** ** utils *)
Module utils.

(** Modelled from the spec: [utils.ToLower] is not among the sources;
    the specification has the configured sameSite value compared
    case-insensitively, which [ToLower] does by mapping the ASCII
    upper-case letters to lower case and leaving every other byte. *)
Definition toLowerByte (c : ascii) : ascii :=
  let n := nat_of_ascii c in
  if (Nat.leb 65 n && Nat.leb n 90)%bool then ascii_of_nat (n + 32) else c.

(** Modelled from the spec: [utils.ToLower], byte by byte. *)
Fixpoint ToLower (s : string) : string :=
  match s with
  | EmptyString => EmptyString
  | String c rest => String (toLowerByte c) (ToLower rest)
  end.

End utils.

(** ** The session package *)
Module session.

Section Model.

(** [V]: the values a record stores ([interface{}]); [Err]: the non-nil
    [error] values; [Ext]: the state of the external collaborators a
    Store reaches through its function fields (the storage backend behind
    [Storage] and whatever the key generator draws from). *)
Context {V Err Ext : Type}.

(** An [error] result: [None] is nil. *)
Definition error := option Err.

(** *** The key/value record *)

(** Modelled from the spec: the [db] type is not among the sources.  The
    specification describes it as an ordered set of (key, value) pairs
    with unique keys. *)
Definition db := list (string * V).

(** Modelled from the spec: [Reset()] empties the mapping. *)
Definition db_Reset (d : db) : db := [].

(** Modelled from the spec: [Len()] is the count of keys. *)
Definition db_Len (d : db) : Z := Z.of_nat (length d).

(** Modelled from the spec: [Get(key)] is the value or absent, without
    side effect. *)
Fixpoint db_Get (d : db) (k : string) : option V :=
  match d with
  | [] => None
  | (k', v) :: rest => if String.eqb k k' then Some v else db_Get rest k
  end.

(** Modelled from the spec: [Set(key, value)] inserts or overwrites. *)
Fixpoint db_Set (d : db) (k : string) (v : V) : db :=
  match d with
  | [] => [(k, v)]
  | (k', v') :: rest =>
      if String.eqb k k' then (k', v) :: rest else (k', v') :: db_Set rest k v
  end.

(** Modelled from the spec: [Delete(key)] is a no-op when the key is
    absent. *)
Fixpoint db_Delete (d : db) (k : string) : db :=
  match d with
  | [] => []
  | (k', v') :: rest =>
      if String.eqb k k' then rest else (k', v') :: db_Delete rest k
  end.

(** *** Store: the configuration a session borrows *)

(** Modelled from the spec: the [fiber.Storage] interface is not among
    the sources.  The specification gives the backend contract as
    [Set(key, value, ttl) -> err] and [Delete(key) -> err] (and a [Get]
    the session methods never call); a call runs on the external state
    and yields an [error]. *)
Record fiber_Storage := mkStorage {
  Storage_Set : string -> list Byte.byte -> time.Duration -> Ext -> error * Ext;
  Storage_Delete : string -> Ext -> error * Ext
}.

(** Modelled from the spec: the [Store] type is not among the sources.
    These are the fields the session methods read through [s.config]; the
    specification lists them as the configuration surface (identifier
    generator, expiration duration, cookie name, path, domain, secure,
    httpOnly, sameSite, and the storage backend), immutable after
    construction, which is why a session's [*Store] is kept as the value
    it points to. *)
Record Store := mkStore {
  Expiration : time.Duration;
  Storage : fiber_Storage;
  CookieName : string;
  CookieDomain : string;
  CookiePath : string;
  CookieSecure : bool;
  CookieHTTPOnly : bool;
  CookieSameSite : string;
  KeyGenerator : Ext -> string * Ext
}.

(** *** Session

    [type Session struct { ctx *fiber.Ctx; config *Store; db *db;
                           id string; fresh bool }] *)
Record Session := mkSession {
  s_ctx : option loc;
  s_config : option Store;
  s_db : option db;
  s_id : string;
  s_fresh : bool
}.

(** [new(Session)]: every field at its zero value. *)
Definition new_Session : Session :=
  mkSession None None None EmptyString false.

(** Modelled from the spec: [fiber.Ctx] is not among the sources.  The
    session code reaches, through [Request()] and [Response()], the
    cookies of the request header (the inbound request representation of
    the specification) and those of the response header (the directives
    pending for the client). *)
Record Ctx := mkCtx {
  req_cookies : list (string * string);
  resp_cookies : list (string * fasthttp.Cookie)
}.

(** *** The world *)
Record World := mkWorld {
  sessions : gmap loc Session;     (* the allocated Session objects *)
  ctxs : gmap loc Ctx;             (* the request contexts *)
  sessionPool : list loc;          (* what sync.Pool currently holds *)
  ext : Ext;                       (* storage backend, key generator *)
  now : time.Time                  (* what time.Now() reads *)
}.

Definition set_sessions (f : gmap loc Session -> gmap loc Session) (w : World) :=
  mkWorld (f (sessions w)) (ctxs w) (sessionPool w) (ext w) (now w).
Definition set_ctxs (f : gmap loc Ctx -> gmap loc Ctx) (w : World) :=
  mkWorld (sessions w) (f (ctxs w)) (sessionPool w) (ext w) (now w).
Definition set_sessionPool (f : list loc -> list loc) (w : World) :=
  mkWorld (sessions w) (ctxs w) (f (sessionPool w)) (ext w) (now w).
Definition set_ext (e : Ext) (w : World) :=
  mkWorld (sessions w) (ctxs w) (sessionPool w) e (now w).

(** *** Computations: a state monad with panics *)
Inductive Res (A : Type) :=
| Done (a : A) (w : World)
| Panic (w : World).
Arguments Done {A} a w.
Arguments Panic {A} w.

Definition M (A : Type) : Type := World -> Res A.

#[export] Instance M_ret : MRet M := fun A a w => Done a w.
#[export] Instance M_bind : MBind M := fun A B f m w =>
  match m w with
  | Done a w' => f a w'
  | Panic w' => Panic w'
  end.

Definition panic {A : Type} : M A := fun w => Panic w.

(** Reading through a pointer that may be nil. *)
Definition deref {A : Type} (o : option A) : M A :=
  match o with
  | Some a => mret a
  | None => panic
  end.

(** Field reads and writes through a [*Session]. *)
Definition load (p : loc) : M Session := fun w => deref (sessions w !! p) w.

Definition store (p : loc) (s : Session) : M unit := fun w =>
  Done tt (set_sessions (insert p s) w).

Definition assign (p : loc) (f : Session -> Session) : M unit :=
  s ← load p; store p (f s).

Definition with_ctx (c : option loc) (s : Session) :=
  mkSession c (s_config s) (s_db s) (s_id s) (s_fresh s).
Definition with_config (c : option Store) (s : Session) :=
  mkSession (s_ctx s) c (s_db s) (s_id s) (s_fresh s).
Definition with_db (d : option db) (s : Session) :=
  mkSession (s_ctx s) (s_config s) d (s_id s) (s_fresh s).
Definition with_id (i : string) (s : Session) :=
  mkSession (s_ctx s) (s_config s) (s_db s) i (s_fresh s).
Definition with_fresh (b : bool) (s : Session) :=
  mkSession (s_ctx s) (s_config s) (s_db s) (s_id s) b.

(** [s.config], dereferenced; [s.ctx], dereferenced; [s.db], dereferenced. *)
Definition the_config (p : loc) : M Store := s ← load p; deref (s_config s).
Definition the_db (p : loc) : M db := s ← load p; deref (s_db s).
Definition the_ctx (p : loc) : M loc := s ← load p; deref (s_ctx s).

(** A write through a [*fiber.Ctx]. *)
Definition assign_ctx (c : loc) (f : Ctx -> Ctx) : M unit := fun w =>
  match ctxs w !! c with
  | Some x => Done tt (set_ctxs (insert c (f x)) w)
  | None => Panic w
  end.

(** A call into an external collaborator. *)
Definition call {A : Type} (f : Ext -> A * Ext) : M A := fun w =>
  let '(a, e) := f (ext w) in Done a (set_ext e w).

(** [time.Now()] *)
Definition time_Now : M time.Time := fun w => Done (now w) w.

(** *** The object pool

    [sync.Pool] hands back any object it still holds, or calls [New];
    which one is not determined, so [Get] takes the pick: [Some i] for
    the i-th pooled object (when there is one), [None] for [New]. *)
Definition pool_New : M loc := fun w =>
  let p := fresh (dom (sessions w)) in
  Done p (set_sessions (insert p new_Session) w).

Definition pool_Get (pick : option nat) : M loc := fun w =>
  match pick with
  | Some i =>
      match sessionPool w !! i with
      | Some p => Done p (set_sessionPool (delete i) w)
      | None => pool_New w
      end
  | None => pool_New w
  end.

Definition pool_Put (p : loc) : M unit := fun w =>
  Done tt (set_sessionPool (cons p) w).

(** [func acquireSession() *Session] *)
Definition acquireSession (pick : option nat) : M loc :=
  s ← pool_Get pick;
  assign s (with_db (Some [])) ;;
  assign s (with_fresh true) ;;
  mret s.

(** [func releaseSession(s *Session)] *)
Definition releaseSession (s : loc) : M unit :=
  assign s (with_ctx None) ;;
  assign s (with_config None) ;;
  o ← load s;
  match s_db o with
  | Some d => store s (with_db (Some (db_Reset d)) o)
  | None => mret tt
  end ;;
  assign s (with_id EmptyString) ;;
  assign s (with_fresh true) ;;
  pool_Put s.

(** [func (s *Session) Fresh() bool] *)
Definition Fresh (s : loc) : M bool := o ← load s; mret (s_fresh o).

(** [func (s *Session) ID() string] *)
Definition ID (s : loc) : M string := o ← load s; mret (s_id o).

(** [func (s *Session) Get(key string) interface{}] *)
Definition Get (s : loc) (k : string) : M (option V) :=
  d ← the_db s; mret (db_Get d k).

(** [func (s *Session) Set(key string, val interface{})]
    ([Set] is reserved, hence the underscore). *)
Definition Set_ (s : loc) (k : string) (v : V) : M unit :=
  d ← the_db s; assign s (with_db (Some (db_Set d k v))).

(** [func (s *Session) Delete(key string)] *)
Definition Delete (s : loc) (k : string) : M unit :=
  d ← the_db s; assign s (with_db (Some (db_Delete d k))).

(** The [switch utils.ToLower(s.config.CookieSameSite)] that ends both
    [setCookie] and [delCookie]. *)
Definition sameSiteMode (configured : string) : fasthttp.CookieSameSite :=
  let v := utils.ToLower configured in
  if String.eqb v "strict" then fasthttp.CookieSameSiteStrictMode
  else if String.eqb v "none" then fasthttp.CookieSameSiteNoneMode
  else fasthttp.CookieSameSiteLaxMode.

(** [Response().Header.SetCookie], [Response().Header.DelCookie] and
    [Request().Header.DelCookie] on a context. *)
Definition Response_SetCookie (fcookie : fasthttp.Cookie) (x : Ctx) : Ctx :=
  mkCtx (req_cookies x)
        (fasthttp.setArg (resp_cookies x) (fasthttp.key fcookie) fcookie).
Definition Response_DelCookie (k : string) (x : Ctx) : Ctx :=
  mkCtx (req_cookies x) (fasthttp.delAllArgs (resp_cookies x) k).
Definition Request_DelCookie (k : string) (x : Ctx) : Ctx :=
  mkCtx (fasthttp.delAllArgs (req_cookies x) k) (resp_cookies x).

(** fasthttp's path normaliser, which [Cookie.SetPath] applies. *)
Variable normalizePath : string -> string.

(** The cookie [setCookie] builds. *)
Definition issued_cookie (cfg : Store) (id : string) (t : time.Time)
  : fasthttp.Cookie :=
  let fcookie := fasthttp.AcquireCookie in
  let fcookie := fasthttp.SetKey fcookie (CookieName cfg) in
  let fcookie := fasthttp.SetValue fcookie id in
  let fcookie := fasthttp.SetPath normalizePath fcookie (CookiePath cfg) in
  let fcookie := fasthttp.SetDomain fcookie (CookieDomain cfg) in
  let fcookie := fasthttp.SetMaxAge fcookie
                   (time.int_of_float64 (time.Seconds (Expiration cfg))) in
  let fcookie := fasthttp.SetExpire fcookie (time.Add t (Expiration cfg)) in
  let fcookie := fasthttp.SetSecure fcookie (CookieSecure cfg) in
  let fcookie := fasthttp.SetHTTPOnly fcookie (CookieHTTPOnly cfg) in
  fasthttp.SetSameSite fcookie (sameSiteMode (CookieSameSite cfg)).

(** [func (s *Session) setCookie()] *)
Definition setCookie (s : loc) : M unit :=
  cfg ← the_config s;
  o ← load s;
  t ← time_Now;
  let fcookie := issued_cookie cfg (s_id o) t in
  c ← the_ctx s;
  assign_ctx c (Response_SetCookie fcookie).

(** The cookie [delCookie] builds. *)
Definition expired_cookie (cfg : Store) (t : time.Time) : fasthttp.Cookie :=
  let fcookie := fasthttp.AcquireCookie in
  let fcookie := fasthttp.SetKey fcookie (CookieName cfg) in
  let fcookie := fasthttp.SetPath normalizePath fcookie (CookiePath cfg) in
  let fcookie := fasthttp.SetDomain fcookie (CookieDomain cfg) in
  let fcookie := fasthttp.SetMaxAge fcookie (-1) in
  let fcookie := fasthttp.SetExpire fcookie (time.Add t (-1 * time.Minute)) in
  let fcookie := fasthttp.SetSecure fcookie (CookieSecure cfg) in
  let fcookie := fasthttp.SetHTTPOnly fcookie (CookieHTTPOnly cfg) in
  fasthttp.SetSameSite fcookie (sameSiteMode (CookieSameSite cfg)).

(** [func (s *Session) delCookie()] *)
Definition delCookie (s : loc) : M unit :=
  c ← the_ctx s;
  cfg ← the_config s;
  assign_ctx c (Request_DelCookie (CookieName cfg)) ;;
  c ← the_ctx s;
  cfg ← the_config s;
  assign_ctx c (Response_DelCookie (CookieName cfg)) ;;
  cfg ← the_config s;
  t ← time_Now;
  let fcookie := expired_cookie cfg t in
  c ← the_ctx s;
  assign_ctx c (Response_SetCookie fcookie).

(** [func (s *Session) Destroy() error] *)
Definition Destroy (s : loc) : M error :=
  (* Reset local data *)
  d ← the_db s;
  assign s (with_db (Some (db_Reset d))) ;;
  (* Delete data from storage *)
  cfg ← the_config s;
  o ← load s;
  err ← call (Storage_Delete (Storage cfg) (s_id o));
  match err with
  | Some e => mret (Some e)
  | None =>
      (* Expire cookie *)
      delCookie s ;;
      mret None
  end.

(** [func (s *Session) Regenerate() error] *)
Definition Regenerate (s : loc) : M error :=
  (* Delete old id from storage *)
  cfg ← the_config s;
  o ← load s;
  err ← call (Storage_Delete (Storage cfg) (s_id o));
  match err with
  | Some e => mret (Some e)
  | None =>
      (* Create new ID *)
      cfg ← the_config s;
      id ← call (KeyGenerator cfg);
      assign s (with_id id) ;;
      mret None
  end.

(** [func (d *db) MarshalMsg(b []byte) ([]byte, error)], called with a
    nil buffer: the encoder of the record is generated code that is not
    among the sources, and is taken as given. *)
Variable MarshalMsg : db -> list Byte.byte * error.

(** [func (s *Session) Save() error] *)
Definition Save (s : loc) : M error :=
  (* Don't save to Storage if no data is available *)
  d ← the_db s;
  if (db_Len d <=? 0)%Z then mret None
  else
    (* Convert book to bytes *)
    let '(data, err) := MarshalMsg d in
    match err with
    | Some e => mret (Some e)
    | None =>
        (* pass raw bytes with session id to provider *)
        cfg ← the_config s;
        o ← load s;
        err ← call (Storage_Set (Storage cfg) (s_id o) data (Expiration cfg));
        match err with
        | Some e => mret (Some e)
        | None =>
            (* Create cookie with the session ID *)
            setCookie s ;;
            (* release session to pool to be re-used on next request *)
            releaseSession s ;;
            mret None
        end
    end.

(** The world a computation ends in, whether it returned or panicked. *)
Definition world_of {A : Type} (r : Res A) : World :=
  match r with
  | Done _ w => w
  | Panic w => w
  end.

(** *** A request cycle's first step *)

(** Modelled from the spec: [Store.Get], which hands a session object to
    the caller, is not among the sources.  The specification has the Store
    resolve or create the object for a request context: the object is
    acquired from the pool, the context and the Store are attached, the
    identifier is assigned (read from the incoming token or freshly
    generated), and the freshness flag and the record are set according
    to what the backend held.  The identifier, the flag and the loaded
    record depend on collaborators outside the sources and are taken as
    given. *)
Definition Store_Get (cfg : Store) (c : loc) (pick : option nat)
    (id : string) (fresh : bool) (loaded : db) : M loc :=
  sess ← acquireSession pick;
  assign sess (with_ctx (Some c)) ;;
  assign sess (with_config (Some cfg)) ;;
  assign sess (with_id id) ;;
  assign sess (with_fresh fresh) ;;
  assign sess (with_db (Some loaded)) ;;
  mret sess.

(** *** Runs of the package

    What callers can invoke, on any session pointer they hold (also one
    they kept after a Save released it).  Calls are taken one at a
    time. *)
Inductive op :=
| OpStoreGet (cfg : Store) (c : loc) (pick : option nat)
             (id : string) (fresh : bool) (loaded : db)
| OpFresh (s : loc)
| OpID (s : loc)
| OpGet (s : loc) (k : string)
| OpSet (s : loc) (k : string) (v : V)
| OpDelete (s : loc) (k : string)
| OpDestroy (s : loc)
| OpRegenerate (s : loc)
| OpSave (s : loc).

Definition run_op (a : op) (w : World) : World :=
  match a with
  | OpStoreGet cfg c pick id fresh loaded =>
      world_of (Store_Get cfg c pick id fresh loaded w)
  | OpFresh s => world_of (Fresh s w)
  | OpID s => world_of (ID s w)
  | OpGet s k => world_of (Get s k w)
  | OpSet s k v => world_of (Set_ s k v w)
  | OpDelete s k => world_of (Delete s k w)
  | OpDestroy s => world_of (Destroy s w)
  | OpRegenerate s => world_of (Regenerate s w)
  | OpSave s => world_of (Save s w)
  end.

(** A step is a call of the package (returning or panicking), the pool
    dropping one of the objects it holds (as sync.Pool may at any time),
    or a move of the environment: contexts come and go with the requests,
    the backend and the clock change on their own. *)
Inductive step : World -> World -> Prop :=
| step_op (a : op) (w : World) : step w (run_op a w)
| step_drop (i : nat) (w : World) : step w (set_sessionPool (delete i) w)
| step_env (w : World) (cs : gmap loc Ctx) (e : Ext) (t : time.Time) :
    step w (mkWorld (sessions w) cs (sessionPool w) e t).

(** The worlds a run can reach from a start with no session object
    allocated and an empty pool. *)
Definition initial (w : World) : Prop :=
  sessions w = ∅ /\ sessionPool w = [].

Definition reachable (w : World) : Prop :=
  exists w0, initial w0 /\ rtc step w0 w.

(** Every pooled object is allocated, detached from any context and
    Store, and without identifier; no object is pooled twice. *)
Definition pool_clean (w : World) : Prop :=
  NoDup (sessionPool w)
  /\ forall p, p ∈ sessionPool w ->
       exists o, sessions w !! p = Some o
         /\ s_ctx o = None /\ s_config o = None /\ s_id o = EmptyString.

(** ** Properties *)

(** Unfolding of the monad and of the field accessors. *)
Ltac unfold_M :=
  unfold the_config, the_db, the_ctx, assign, load, store, call, time_Now,
    assign_ctx, pool_Put, deref, panic, mbind, M_bind, mret, M_ret in *.

(** Symbolic execution: unfold, compute, and rewrite with the known
    lookups and call results. *)
Ltac exec :=
  unfold_M;
  repeat (simpl;
          try match goal with
              | H : _ = _ |- _ => rewrite H
              end;
          rewrite ?lookup_insert_eq).

Lemma db_Len_pos (d : db) : (0 < db_Len d)%Z -> (db_Len d <=? 0)%Z = false.
Proof. intros H. apply Z.leb_gt. exact H. Qed.

(** *** Durations in seconds

    [float64(n)] is exact for an integer below 2^53, and [int] of it gives
    the integer back; hence [int(d.Seconds())] is the number of seconds of
    a duration that is a whole number of seconds.  For a duration with a
    fraction of a second the fraction is dropped as long as the duration
    is below 2^24 seconds. *)
Section Seconds.
Local Open Scope Z_scope.

Lemma digits2_pos_iter_xO m n :
  digits2_pos (Pos.iter xO m n) = (digits2_pos m + n)%positive.
Proof.
  induction n as [|n IH] using Pos.peano_ind.
  - simpl. lia.
  - rewrite Pos.iter_succ. simpl. rewrite IH. lia.
Qed.

Lemma Zpos_iter_xO m n : Zpos (Pos.iter xO m n) = Zpos m * 2 ^ Zpos n.
Proof.
  induction n as [|n IH] using Pos.peano_ind.
  - simpl. lia.
  - rewrite Pos.iter_succ, Pos2Z.inj_succ, Z.pow_succ_r by lia.
    rewrite Pos2Z.inj_xO, IH. lia.
Qed.

Lemma binary_round_aux_exact sx mz ez :
  Zpos (digits2_pos mz) = 53 -> -1074 <= ez <= 971 ->
  binary_round_aux 53 1024 sx (Zpos mz) ez loc_Exact = S754_finite sx mz ez.
Proof.
  intros Hd He.
  assert (Hf : fexp 53 1024 (Zdigits2 (Zpos mz) + ez) - ez = 0).
  { simpl Zdigits2. rewrite Hd. unfold fexp, emin. lia. }
  unfold binary_round_aux, shr_fexp. rewrite Hf. simpl.
  rewrite Hd.
  replace (fexp 53 1024 (53 + ez) - ez) with 0 by (unfold fexp, emin; lia).
  simpl. 
  replace (ez <=? 1024 - 53) with true by (symmetry; apply Z.leb_le; lia).
  reflexivity.
Qed.

Lemma float64_of_pos_exact sx m :
  Zpos (digits2_pos m) <= 53 ->
  exists mz ez, binary_round 53 1024 sx m 0 = S754_finite sx mz ez
    /\ ez <= 0 /\ Zpos mz = Zpos m * 2 ^ (- ez).
Proof.
  intros Hd. unfold binary_round, shl_align.
  assert (Hf : fexp 53 1024 (Zpos (digits2_pos m) + 0) = Zpos (digits2_pos m) - 53).
  { unfold fexp, emin. lia. }
  rewrite Hf.
  destruct (Zpos (digits2_pos m) - 53 - 0) as [|n|n] eqn:E; try lia.
  - exists m, 0. split; [|split; [lia|simpl; lia]].
    apply binary_round_aux_exact; lia.
  - exists (Pos.iter xO m n), (Zpos (digits2_pos m) - 53).
    split; [|split; [lia|]].
    + apply binary_round_aux_exact; [|lia].
      rewrite digits2_pos_iter_xO. lia.
    + rewrite Zpos_iter_xO. f_equal. f_equal. lia.
Qed.

Lemma int_of_float64_exact sx mz ez a :
  ez <= 0 -> Zpos mz = a * 2 ^ (- ez) ->
  time.int_of_float64 (S754_finite sx mz ez) = if sx then - a else a.
Proof.
  intros He Hm. unfold time.int_of_float64.
  destruct ez as [|e|e]; try lia.
  - simpl in Hm. rewrite Hm. destruct sx; f_equal; lia.
  - rewrite Hm. rewrite Z.shiftr_div_pow2 by lia.
    rewrite Z.div_mul by (apply Z.pow_nonzero; lia). reflexivity.
Qed.

Lemma digits2_pos_bound m k : 0 <= k -> Zpos m < 2 ^ k -> Zpos (digits2_pos m) <= k.
Proof.
  revert k. induction m as [m IH|m IH|]; intros k Hk Hlt; simpl.
  - destruct (Z.eq_dec k 0) as [->|]; [simpl in Hlt; lia|].
    replace k with (Z.succ (k - 1)) in Hlt by lia.
    rewrite Z.pow_succ_r in Hlt by lia.
    specialize (IH (k - 1)). lia.
  - destruct (Z.eq_dec k 0) as [->|]; [simpl in Hlt; lia|].
    replace k with (Z.succ (k - 1)) in Hlt by lia.
    rewrite Z.pow_succ_r in Hlt by lia.
    specialize (IH (k - 1)). lia.
  - destruct (Z.eq_dec k 0) as [->|]; [simpl in Hlt; lia|]. lia.
Qed.

Lemma int_of_float64_of_int (n : Z) :
  - 2 ^ 53 < n < 2 ^ 53 ->
  time.int_of_float64 (time.float64_of_int n) = n.
Proof.
  intros Hn. unfold time.float64_of_int, binary_normalize, time.prec, time.emax.
  destruct n as [|m|m]; [reflexivity| |].
  - destruct (float64_of_pos_exact false m) as (mz & ez & -> & He & Hm).
    { apply digits2_pos_bound; lia. }
    rewrite (int_of_float64_exact _ _ _ (Zpos m)) by assumption. reflexivity.
  - destruct (float64_of_pos_exact true m) as (mz & ez & -> & He & Hm).
    { apply digits2_pos_bound; lia. }
    rewrite (int_of_float64_exact _ _ _ (Zpos m)) by assumption. reflexivity.
Qed.

Lemma Seconds_whole (d : time.Duration) :
  - 2 ^ 63 <= d < 2 ^ 63 ->
  Z.rem d time.Second = 0 ->
  time.int_of_float64 (time.Seconds d) = Z.quot d time.Second.
Proof.
  intros Hd Hr. unfold time.Seconds. rewrite Hr.
  assert (Hk : - 2 ^ 53 < Z.quot d time.Second < 2 ^ 53).
  { unfold time.Second. 
    assert (-9223372037 < Z.quot d 1000000000 < 9223372037).
    { split.
      - apply Z.lt_le_trans with (Z.quot (- 2 ^ 63) 1000000000); [reflexivity|].
        apply Z.quot_le_mono; lia.
      - apply Z.le_lt_trans with (Z.quot (2 ^ 63) 1000000000); [|reflexivity].
        apply Z.quot_le_mono; lia. }
    lia. }
  pose proof (int_of_float64_of_int _ Hk) as Hx.
  set (k := Z.quot d time.Second) in *.
  change (SFdiv time.prec time.emax (time.float64_of_int 0)
            (time.float64_of_int 1000000000)) with (S754_zero false).
  unfold time.float64_of_int in *.
  destruct k as [|m|m]; [reflexivity| |].
  - unfold binary_normalize in *.
    destruct (float64_of_pos_exact false m) as (mz & ez & E & _).
    { apply digits2_pos_bound; lia. }
    unfold time.prec, time.emax in *. rewrite E in *. exact Hx.
  - unfold binary_normalize in *.
    destruct (float64_of_pos_exact true m) as (mz & ez & E & _).
    { apply digits2_pos_bound; lia. }
    unfold time.prec, time.emax in *. rewrite E in *. exact Hx.
Qed.

(** **** Durations with a fraction of a second

    The binary64 quotient [float64(nsec)/1e9] and its sum with
    [float64(sec)], followed through [SFdiv] and [SFadd]. *)

Lemma digits2_pos_size p : digits2_pos p = Pos.size p.
Proof. induction p; simpl; congruence. Qed.

Lemma Zdigits2_bounds (m : positive) :
  2 ^ (Zpos (digits2_pos m) - 1) <= Zpos m < 2 ^ Zpos (digits2_pos m).
Proof.
  induction m as [m IH|m IH|]; simpl digits2_pos.
  - rewrite Pos2Z.inj_succ.
    replace (Z.succ (Zpos (digits2_pos m)) - 1) with (Z.succ (Zpos (digits2_pos m) - 1)) by lia.
    rewrite !Z.pow_succ_r by lia. lia.
  - rewrite Pos2Z.inj_succ.
    replace (Z.succ (Zpos (digits2_pos m)) - 1) with (Z.succ (Zpos (digits2_pos m) - 1)) by lia.
    rewrite !Z.pow_succ_r by lia. lia.
  - simpl. lia.
Qed.

Lemma Zdigits2_unique (m : positive) (d : Z) :
  2 ^ (d - 1) <= Zpos m < 2 ^ d -> Zpos (digits2_pos m) = d.
Proof.
  intros [Hl Hu]. pose proof (Zdigits2_bounds m) as [Hl' Hu'].
  assert (0 < d). { destruct (Z_lt_le_dec 0 d); [assumption|].
    assert (2 ^ d <= 2 ^ 0) by (destruct (Z_lt_le_dec d 0); [rewrite Z.pow_neg_r by lia; lia| apply Z.pow_le_mono_r; lia]). simpl in *. lia. }
  destruct (Z_lt_le_dec (Zpos (digits2_pos m)) d) as [Hlt|Hge].
  - assert (2 ^ Zpos (digits2_pos m) <= 2 ^ (d - 1)) by (apply Z.pow_le_mono_r; lia). lia.
  - destruct (Z_lt_le_dec d (Zpos (digits2_pos m))) as [Hlt|Hge'].
    + assert (2 ^ d <= 2 ^ (Zpos (digits2_pos m) - 1)) by (apply Z.pow_le_mono_r; lia). lia.
    + lia.
Qed.

Lemma shr_1_m mrs : 0 <= shr_m mrs -> shr_m (shr_1 mrs) = shr_m mrs / 2.
Proof.
  destruct mrs as [m r s]. simpl. intros Hm.
  destruct m as [|[p|p|]|p]; simpl; try lia; try reflexivity.
  - apply Z.div_unique with 1; lia.
  - apply Z.div_unique with 0; lia.
Qed.

Lemma shr_1_r mrs : 0 <= shr_m mrs -> shr_r (shr_1 mrs) = Z.odd (shr_m mrs).
Proof.
  destruct mrs as [m r s]. simpl. intros Hm.
  destruct m as [|[p|p|]|p]; simpl; try lia; reflexivity.
Qed.

Lemma iter_shr_m p : forall mrs, 0 <= shr_m mrs ->
  shr_m (SpecFloat.iter_pos shr_1 p mrs) = shr_m mrs / 2 ^ Zpos p.
Proof.
  induction p as [p IH|p IH|]; intros mrs Hm; simpl SpecFloat.iter_pos.
  - assert (H1 : 0 <= shr_m (shr_1 mrs)) by (rewrite shr_1_m by lia; apply Z.div_pos; lia).
    assert (H2 : 0 <= shr_m (SpecFloat.iter_pos shr_1 p (shr_1 mrs))) by (rewrite IH by lia; apply Z.div_pos; [lia|apply Z.pow_pos_nonneg; lia]).
    rewrite IH by lia. rewrite IH by lia. rewrite shr_1_m by lia.
    rewrite !Z.div_div by (try apply Z.pow_pos_nonneg; lia).
    f_equal. replace (Zpos p~1) with (1 + Zpos p + Zpos p) by lia.
    rewrite !Z.pow_add_r by lia. lia.
  - assert (H2 : 0 <= shr_m (SpecFloat.iter_pos shr_1 p mrs)) by (rewrite IH by lia; apply Z.div_pos; [lia|apply Z.pow_pos_nonneg; lia]).
    rewrite IH by lia. rewrite IH by lia.
    rewrite !Z.div_div by (try apply Z.pow_pos_nonneg; lia).
    f_equal. replace (Zpos p~0) with (Zpos p + Zpos p) by lia.
    rewrite !Z.pow_add_r by lia. lia.
  - rewrite shr_1_m by lia. reflexivity.
Qed.

Lemma iter_shr_r p : forall mrs, 0 <= shr_m mrs ->
  shr_r (SpecFloat.iter_pos shr_1 p mrs) = Z.testbit (shr_m mrs) (Zpos p - 1).
Proof.
  induction p as [p IH|p IH|]; intros mrs Hm; simpl SpecFloat.iter_pos.
  - assert (H1 : 0 <= shr_m (shr_1 mrs)) by (rewrite shr_1_m by lia; apply Z.div_pos; lia).
    assert (H2 : 0 <= shr_m (SpecFloat.iter_pos shr_1 p (shr_1 mrs))) by (rewrite iter_shr_m by lia; apply Z.div_pos; [lia|apply Z.pow_pos_nonneg; lia]).
    rewrite IH by lia. rewrite iter_shr_m by lia. rewrite shr_1_m by lia.
    rewrite Z.div_div by (try apply Z.pow_pos_nonneg; lia).
    replace (2 * 2 ^ Zpos p) with (2 ^ (Zpos p + 1)) by (rewrite Z.pow_add_r by lia; lia).
    rewrite Z.div_pow2_bits by lia. f_equal. lia.
  - assert (H2 : 0 <= shr_m (SpecFloat.iter_pos shr_1 p mrs)) by (rewrite iter_shr_m by lia; apply Z.div_pos; [lia|apply Z.pow_pos_nonneg; lia]).
    rewrite IH by lia. rewrite iter_shr_m by lia.
    rewrite Z.div_pow2_bits by lia. f_equal. lia.
  - rewrite shr_1_r by lia. change (Zpos 1 - 1) with 0. symmetry. apply Z.bit0_odd.
Qed.

Lemma fexp_normal e : -1074 <= e - 53 -> fexp 53 1024 e = e - 53.
Proof. intros H. unfold fexp, emin. lia. Qed.

Lemma shr_m_of_loc m l : shr_m (shr_record_of_loc m l) = m.
Proof. destruct l as [|[]]; reflexivity. Qed.

Lemma loc_of_shr_of_loc m l : loc_of_shr_record (shr_record_of_loc m l) = l.
Proof. destruct l as [|[]]; reflexivity. Qed.

Lemma shr_fexp_spec (m : positive) ex lx n :
  Zpos (digits2_pos m) = 53 + n ->
  0 <= n -> -1074 <= ex + n ->
  exists mrs,
    shr_fexp 53 1024 (Zpos m) ex lx = (mrs, ex + n)
    /\ shr_m mrs = Zpos m / 2 ^ n
    /\ (0 < n -> shr_r mrs = Z.testbit (Zpos m) (n - 1))
    /\ (n = 0 -> mrs = shr_record_of_loc (Zpos m) lx).
Proof.
  intros Hd Hn He. unfold shr_fexp. simpl Zdigits2. rewrite Hd.
  rewrite fexp_normal by lia.
  replace (53 + n + ex - 53 - ex) with n by lia.
  unfold shr. destruct n as [|p|p] eqn:En; try lia.
  - eexists. split; [f_equal; lia|]. split; [|split; [lia|reflexivity]].
    rewrite shr_m_of_loc. rewrite Z.div_1_r. reflexivity.
  - eexists. split; [reflexivity|].
    split; [|split; [|lia]].
    + rewrite iter_shr_m by (rewrite shr_m_of_loc; lia).
      rewrite shr_m_of_loc. reflexivity.
    + intros _. rewrite iter_shr_r by (rewrite shr_m_of_loc; lia).
      rewrite shr_m_of_loc. reflexivity.
Qed.

Lemma rne_bounds m l : m <= round_nearest_even m l <= m + 1.
Proof. destruct l as [|[]]; simpl; try lia. destruct (Z.even m); lia. Qed.

Lemma rne_r_false mrs :
  shr_r mrs = false ->
  round_nearest_even (shr_m mrs) (loc_of_shr_record mrs) = shr_m mrs.
Proof. destruct mrs as [m [] []]; simpl; intros H; try discriminate; reflexivity. Qed.

Lemma round_finish sx (m1 e' : Z) :
  2 ^ 52 <= m1 <= 2 ^ 53 -> -1074 <= e' <= 970 ->
  exists mz ez,
    (let '(mrs, e'') := shr_fexp 53 1024 m1 e' loc_Exact in
     match shr_m mrs with
     | Z0 => S754_zero sx
     | Zpos m => if e'' <=? 1024 - 53 then S754_finite sx m e'' else S754_infinity sx
     | Zneg _ => S754_nan
     end) = S754_finite sx mz ez
    /\ Zpos mz * 2 ^ (ez - e') = m1
    /\ (ez = e' \/ ez = e' + 1)
    /\ (m1 < 2 ^ 53 -> Zpos mz = m1 /\ ez = e')
    /\ 2 ^ 52 <= Zpos mz < 2 ^ 53.
Proof.
  intros Hm He.
  destruct (Z.eq_dec m1 (2 ^ 53)) as [->|Hne].
  - exists (4503599627370496%positive), (e' + 1).
    split; [|split; [|split; [right; reflexivity|split; [intros; lia|simpl; lia]]]].
    + unfold shr_fexp. change (Zdigits2 (2 ^ 53)) with 54.
      rewrite fexp_normal by lia.
      replace (54 + e' - 53 - e') with 1 by lia.
      cbv -[Z.add Z.leb]. replace (e' + 1 <=? 1024 + -53) with true by (symmetry; apply Z.leb_le; lia).
      reflexivity.
    + replace (e' + 1 - e') with 1 by lia. reflexivity.
  - destruct m1 as [|q|q]; try (simpl in Hm; lia).
    assert (Hd : Zpos (digits2_pos q) = 53)
      by (apply Zdigits2_unique; change (53 - 1) with 52; lia).
    exists q, e'.
    split; [|split; [|split; [left; reflexivity|split; [intros; split; reflexivity|lia]]]].
    + destruct (shr_fexp_spec q e' loc_Exact 0) as (mrs & E & Hmm & _ & Hz);
        try lia.
      replace (e' + 0) with e' in E by lia.
      rewrite E. rewrite Hz by lia. cbn [shr_record_of_loc shr_m].
      change (1024 - 53) with 971.
      replace (e' <=? 971) with true by (symmetry; apply Z.leb_le; lia).
      reflexivity.
    + replace (e' - e') with 0 by lia. rewrite Z.pow_0_r. lia.
Qed.

Lemma div_pow2_range (m : positive) (n : Z) :
  0 <= n -> Zpos (digits2_pos m) = 53 + n ->
  2 ^ 52 <= Zpos m / 2 ^ n < 2 ^ 53.
Proof.
  intros Hn Hd. pose proof (Zdigits2_bounds m) as [Hl Hu].
  rewrite Hd in Hl, Hu.
  replace (53 + n - 1) with (52 + n) in Hl by lia.
  rewrite Z.pow_add_r in Hl, Hu by lia.
  assert (0 < 2 ^ n) by (apply Z.pow_pos_nonneg; lia).
  split.
  - apply Z.div_le_lower_bound; lia.
  - apply Z.div_lt_upper_bound; lia.
Qed.

(** Rounding a mantissa of [53 + n] digits to binary64: the [n] low
    digits are shifted out and the result is the quotient or its
    successor; it is the quotient when the first digit shifted out is
    zero. *)
Lemma binary_round_aux_spec sx (m : positive) ex lx n :
  Zpos (digits2_pos m) = 53 + n ->
  0 <= n -> -1074 <= ex + n <= 970 ->
  exists mz ez,
    binary_round_aux 53 1024 sx (Zpos m) ex lx = S754_finite sx mz ez
    /\ (ez = ex + n \/ ez = ex + n + 1)
    /\ (Zpos mz * 2 ^ (ez - (ex + n)) = Zpos m / 2 ^ n
        \/ Zpos mz * 2 ^ (ez - (ex + n)) = Zpos m / 2 ^ n + 1)
    /\ (0 < n -> Z.testbit (Zpos m) (n - 1) = false ->
        Zpos mz = Zpos m / 2 ^ n /\ ez = ex + n)
    /\ 2 ^ 52 <= Zpos mz < 2 ^ 53.
Proof.
  intros Hd Hn He.
  destruct (shr_fexp_spec m ex lx n Hd Hn (proj1 He)) as (mrs & E & Hmm & Hr & _).
  pose proof (div_pow2_range m n Hn Hd) as Hrange.
  pose proof (rne_bounds (shr_m mrs) (loc_of_shr_record mrs)) as Hb.
  rewrite Hmm in Hb.
  destruct (round_finish sx (round_nearest_even (shr_m mrs) (loc_of_shr_record mrs))
              (ex + n)) as (mz & ez & Efin & Hval & Hez & Hlt & Hmz);
    [rewrite Hmm; lia|lia|].
  exists mz, ez. unfold binary_round_aux. rewrite E.
  split; [exact Efin|]. split; [exact Hez|]. split; [|split; [|exact Hmz]].
  - rewrite Hval. rewrite Hmm. lia.
  - intros Hpos Hbit. rewrite <- Hr in Hbit by exact Hpos.
    rewrite (rne_r_false mrs Hbit) in Hlt. rewrite Hmm in Hlt.
    apply Hlt. lia.
Qed.

(** [float64(m)] for an integer of at most 53 digits, with its
    normalised mantissa. *)
Lemma float_of_pos_norm sx (m : positive) (d : Z) :
  Zpos (digits2_pos m) = d -> d <= 53 ->
  exists mz,
    binary_round 53 1024 sx m 0 = S754_finite sx mz (d - 53)
    /\ Zpos mz = Zpos m * 2 ^ (53 - d)
    /\ 2 ^ 52 <= Zpos mz < 2 ^ 53.
Proof.
  intros Hd Hle. pose proof (Zdigits2_bounds m) as [Hl Hu]. rewrite Hd in Hl, Hu.
  assert (Hd1 : 1 <= d) by (rewrite <- Hd; lia).
  assert (Hrng : 2 ^ 52 <= Zpos m * 2 ^ (53 - d) < 2 ^ 53).
  { assert (E52 : 2 ^ 52 = 2 ^ (d - 1) * 2 ^ (53 - d))
      by (rewrite <- Z.pow_add_r by lia; f_equal; lia).
    assert (E53 : 2 ^ 53 = 2 ^ d * 2 ^ (53 - d))
      by (rewrite <- Z.pow_add_r by lia; f_equal; lia).
    rewrite E52, E53.
    assert (0 < 2 ^ (53 - d)) by (apply Z.pow_pos_nonneg; lia). nia. }
  unfold binary_round, shl_align. rewrite Hd.
  rewrite fexp_normal by lia.
  destruct (d + 0 - 53 - 0) as [|n|n] eqn:E; try lia.
  - assert (d = 53) as -> by lia.
    exists m. replace (53 - 53) with 0 in * by lia.
    rewrite Z.mul_1_r in Hrng. split; [|split; [lia|exact Hrng]].
    apply binary_round_aux_exact; lia.
  - exists (Pos.iter xO m n).
    assert (Hn : Zpos n = 53 - d) by lia.
    split; [|split; [rewrite Zpos_iter_xO, Hn; reflexivity|rewrite Zpos_iter_xO, Hn; exact Hrng]].
    replace (d + 0 - 53) with (d - 53) by lia.
    apply binary_round_aux_exact; [|lia].
    apply Zdigits2_unique. rewrite Zpos_iter_xO, Hn. change (53 - 1) with 52. exact Hrng.
Qed.

Lemma SFdiv_core_spec (m1 m2 : positive) e1 e2 :
  Zpos (digits2_pos m1) = 53 -> Zpos (digits2_pos m2) = 53 ->
  -1074 <= e1 - e2 - 53 ->
  SFdiv_core_binary 53 1024 (Zpos m1) e1 (Zpos m2) e2 =
    (Zpos m1 * 2 ^ 53 / Zpos m2, e1 - e2 - 53,
     new_location (Zpos m2) (Zpos m1 * 2 ^ 53 mod Zpos m2)).
Proof.
  intros H1 H2 He. unfold SFdiv_core_binary. simpl Zdigits2. rewrite H1, H2.
  rewrite fexp_normal by lia.
  replace (53 + e1 - (53 + e2) - 53) with (e1 - e2 - 53) by lia.
  rewrite Z.min_l by lia.
  replace (e1 - e2 - (e1 - e2 - 53)) with 53 by lia.
  rewrite Z.shiftl_mul_pow2 by lia.
  unfold Z.div, Z.modulo.
  destruct (Z.div_eucl (Zpos m1 * 2 ^ 53) (Zpos m2)). reflexivity.
Qed.

Lemma pow2_lt_inv a b : 0 <= b -> 2 ^ a < 2 ^ b -> a < b.
Proof. intros Hb H. apply (Z.pow_lt_mono_r_iff 2); lia. Qed.

(** [float64(nsec)/1e9] for a fraction of a second: a finite float
    below [1 - 2^-30]. *)
Lemma Seconds_frac (nsec : positive) :
  Zpos nsec <= 999999999 ->
  exists mf ef,
    SFdiv 53 1024 (binary_normalize 53 1024 (Zpos nsec) 0 false)
                  (binary_normalize 53 1024 1000000000 0 false)
    = S754_finite false mf ef
    /\ -83 <= ef <= -53
    /\ 2 ^ 52 <= Zpos mf < 2 ^ 53
    /\ Zpos mf * 2 ^ 30 < (2 ^ 30 - 1) * 2 ^ (- ef).
Proof.
  intros Hns.
  set (d1 := Zpos (digits2_pos nsec)).
  pose proof (Zdigits2_bounds nsec) as [Hl Hu]. fold d1 in Hl, Hu.
  assert (Hd1 : 1 <= d1 <= 30).
  { split; [unfold d1; lia|].
    assert (d1 - 1 < 30); [|lia]. apply pow2_lt_inv; [lia|].
    change (2 ^ 30) with 1073741824. lia. }
  destruct (float_of_pos_norm false nsec d1 eq_refl) as (m1 & E1 & Hm1 & Hr1); [lia|].
  destruct (float_of_pos_norm false 1000000000 30 eq_refl) as (m2 & E2 & Hm2 & Hr2); [lia|].
  change (Zpos 1000000000 * 2 ^ (53 - 30)) with 8388608000000000 in Hm2.
  change (30 - 53) with (-23) in E2.
  cbn [binary_normalize]. rewrite E1, E2.
  assert (D1 : Zpos (digits2_pos m1) = 53)
    by (apply Zdigits2_unique; change (53 - 1) with 52; lia).
  assert (D2 : Zpos (digits2_pos m2) = 53)
    by (apply Zdigits2_unique; change (53 - 1) with 52; lia).
  cbn [SFdiv xorb].
  rewrite (SFdiv_core_spec m1 m2 (d1 - 53) (-23) D1 D2) by lia.
  set (q := Zpos m1 * 2 ^ 53 / Zpos m2).
  set (lz := new_location _ _).
  set (K := 83 - d1).
  replace (d1 - 53 - -23 - 53) with (- K) by (unfold K; lia).
  set (P := 2 ^ (K - 30)).
  assert (HP : 2 ^ 23 <= P)
    by (unfold P; apply Z.pow_le_mono_r; unfold K; lia).
  assert (HK : 2 ^ K = 2 ^ 30 * P)
    by (unfold P; rewrite <- Z.pow_add_r by (unfold K; lia); f_equal; lia).
  assert (Hm1K : Zpos m1 * 2 ^ 53 = Zpos nsec * (2 ^ K * 2 ^ 23)).
  { rewrite Hm1. rewrite <- (Z.pow_add_r 2 K 23) by (unfold K; lia).
    rewrite <- Z.mul_assoc, <- Z.pow_add_r by lia.
    do 2 f_equal. unfold K. lia. }
  (* the quotient *)
  assert (Hqm : q * Zpos m2 <= Zpos m1 * 2 ^ 53 < (q + 1) * Zpos m2).
  { unfold q. pose proof (Z.div_mod (Zpos m1 * 2 ^ 53) (Zpos m2) ltac:(lia)) as Hdm.
    pose proof (Z.mod_pos_bound (Zpos m1 * 2 ^ 53) (Zpos m2) ltac:(lia)). lia. }
  assert (Hq9 : q * 1000000000 <= Zpos nsec * 2 ^ K).
  { rewrite Hm1K, Hm2 in Hqm. lia. }
  assert (Hqr : 2 ^ 52 <= q < 2 ^ 54).
  { change (2 ^ 54) with (2 * 2 ^ 53). change (2 ^ 53) with (2 * 2 ^ 52) in *.
    split; nia. }
  destruct q as [|qp|qp] eqn:Eq; try lia.
  assert (exists n, 0 <= n <= 1 /\ Zpos (digits2_pos qp) = 53 + n) as (n & Hn & Dq).
  { destruct (Z_lt_le_dec (Zpos qp) (2 ^ 53)).
    - exists 0. split; [lia|]. apply Zdigits2_unique. change (53 + 0 - 1) with 52.
      change (53 + 0) with 53. lia.
    - exists 1. split; [lia|]. apply Zdigits2_unique. change (53 + 1 - 1) with 53.
      change (53 + 1) with 54. lia. }
  destruct (binary_round_aux_spec false qp (- K) lz n Dq) as (mf & ef & Er & Hef & Hv & _ & Hmf);
    [lia|unfold K; lia|].
  exists mf, ef. split; [exact Er|].
  assert (Hdiv : Zpos qp / 2 ^ n * 2 ^ n <= Zpos qp).
  { pose proof (Z.div_mod (Zpos qp) (2 ^ n) ltac:(apply Z.pow_nonzero; lia)).
    pose proof (Z.mod_pos_bound (Zpos qp) (2 ^ n) ltac:(apply Z.pow_pos_nonneg; lia)).
    lia. }
  set (j := ef - (- K + n)) in *.
  assert (Hj : 0 <= j <= 1) by (unfold j; lia).
  assert (Hef' : - ef = K - n - j) by (unfold j; lia).
  set (T := 2 ^ n * 2 ^ j).
  assert (HT : 1 <= T <= 4).
  { unfold T. assert (n = 0 \/ n = 1) as [-> | ->] by lia;
      (assert (j = 0 \/ j = 1) as [-> | ->] by lia);
      rewrite ?Z.pow_0_r, ?Z.pow_1_r; lia. }
  set (W := 2 ^ (- ef)).
  assert (HW : W * T = 2 ^ K).
  { unfold W, T. rewrite <- !Z.pow_add_r by lia. f_equal. lia. }
  assert (HmT : Zpos mf * T <= Zpos qp + 2).
  { unfold T.
    assert (Zpos mf * 2 ^ j <= Zpos qp / 2 ^ n + 1) by lia.
    assert (1 <= 2 ^ n <= 2) by (assert (n = 0 \/ n = 1) as [-> | ->] by lia; rewrite ?Z.pow_0_r, ?Z.pow_1_r; lia).
    nia. }
  assert (Hlt : Zpos mf * 2 ^ 30 < (2 ^ 30 - 1) * W).
  { change (2 ^ 30) with 1073741824 in *. change (2 ^ 23) with 8388608 in *. nia. }
  assert (HWpos : 0 < W) by (apply Z.pow_pos_nonneg; lia).
  split; [|split; [exact Hmf|exact Hlt]].
  split; [unfold K in *; lia|].
  (* ef <= -53: the value is below one and the mantissa holds 53 digits *)
  assert (Zpos mf < W) by (change (2 ^ 30) with 1073741824 in *; lia).
  assert (52 < - ef); [|lia].
  apply pow2_lt_inv; [lia|]. fold W. lia.
Qed.

Lemma int_of_float64_neg_exp (m : positive) e :
  e < 0 -> time.int_of_float64 (S754_finite false m e) = Zpos m / 2 ^ (- e).
Proof.
  intros He. destruct e; try lia. cbn [time.int_of_float64].
  apply Z.shiftr_div_pow2. lia.
Qed.

Lemma div_between a b q : 0 < b -> q * b <= a < (q + 1) * b -> a / b = q.
Proof.
  intros Hb H. symmetry. apply (Z.div_unique a b q (a - q * b)); lia.
Qed.

(** Adding such a fraction to a whole number of seconds below 2^24
    never reaches the next integer. *)
Lemma Seconds_sum (sec mf : positive) ef :
  Zpos sec < 2 ^ 24 -> -83 <= ef <= -53 ->
  2 ^ 52 <= Zpos mf < 2 ^ 53 ->
  Zpos mf * 2 ^ 30 < (2 ^ 30 - 1) * 2 ^ (- ef) ->
  time.int_of_float64 (SFadd 53 1024 (binary_normalize 53 1024 (Zpos sec) 0 false)
                        (S754_finite false mf ef)) = Zpos sec.
Proof.
  intros Hsec Hef Hmf Hfr.
  set (ds := Zpos (digits2_pos sec)).
  pose proof (Zdigits2_bounds sec) as [Hl Hu]. fold ds in Hl, Hu.
  assert (Hds : 1 <= ds <= 24).
  { split; [unfold ds; lia|].
    assert (ds - 1 < 24); [|lia]. apply pow2_lt_inv; lia. }
  destruct (float_of_pos_norm false sec ds eq_refl) as (ms & Es & Hms & Hrs); [lia|].
  cbn [binary_normalize]. rewrite Es.
  set (es := ds - 53) in *.
  assert (Hes : -52 <= es <= -29) by (unfold es; lia).
  replace (53 - ds) with (- es) in Hms by (unfold es; lia).
  set (E := 2 ^ (- es)) in *.
  assert (HE : 2 ^ 29 <= E) by (apply Z.pow_le_mono_r; lia).
  cbn [SFadd cond_Zopp]. rewrite Z.min_r by lia.
  unfold shl_align at 2. replace (ef - ef) with 0 by lia. cbn [fst].
  unfold shl_align. destruct (ef - es) as [|p|p] eqn:Ep; try lia. cbn [fst].
  set (n := Zpos p).
  assert (Hn : n = es - ef) by (unfold n; lia).
  assert (Hn1 : 1 <= n) by lia.
  change (Zpos (Pos.iter xO ms p) + Zpos mf) with (Zpos (Pos.iter xO ms p + mf)).
  cbn [binary_normalize].
  set (Mp := (Pos.iter xO ms p + mf)%positive).
  assert (HM : Zpos Mp = Zpos ms * 2 ^ n + Zpos mf).
  { unfold Mp. rewrite Pos2Z.inj_add, Zpos_iter_xO. reflexivity. }
  assert (H2n : 0 < 2 ^ n) by (apply Z.pow_pos_nonneg; lia).
  assert (HW : 2 ^ (- ef) = 2 ^ n * E).
  { unfold E. rewrite <- Z.pow_add_r by lia. f_equal. lia. }
  rewrite HW in Hfr.
  assert (Hmflt : Zpos mf < 2 ^ n * E).
  { change (2 ^ 30) with 1073741824 in Hfr. nia. }
  assert (HsecE : Zpos sec + 1 <= 2 ^ ds) by lia.
  assert (HEds : 2 ^ ds * E = 2 ^ 53).
  { unfold E. rewrite <- Z.pow_add_r by lia. f_equal. unfold es. lia. }
  assert (HMr : 2 ^ (53 + n - 1) <= Zpos Mp < 2 ^ (53 + n)).
  { replace (53 + n - 1) with (52 + n) by lia.
    rewrite !Z.pow_add_r by lia. rewrite HM. split; [nia|].
    assert (Zpos ms + E <= 2 ^ 53) by (rewrite Hms, <- HEds; nia).
    nia. }
  assert (DM : Zpos (digits2_pos Mp) = 53 + n) by (apply Zdigits2_unique; exact HMr).
  unfold binary_round. rewrite DM. rewrite fexp_normal by lia.
  unfold shl_align. destruct (53 + n + ef - 53 - ef) as [|r|r] eqn:Er; try lia.
  destruct (binary_round_aux_spec false Mp ef loc_Exact n DM) as (mz & ez & Ez & Hez & Hv & Hbit & _);
    [lia|lia|].
  rewrite Ez.
  replace (ef + n) with es in * by lia.
  assert (Hg : Zpos Mp / 2 ^ n = Zpos ms + Zpos mf / 2 ^ n).
  { rewrite HM. rewrite Z.div_add_l by lia. reflexivity. }
  set (g := Zpos mf / 2 ^ n) in *.
  assert (Hg0 : 0 <= g) by (apply Z.div_pos; lia).
  assert (HgE : g < E) by (apply Z.div_lt_upper_bound; lia).
  set (Vz := Zpos mz * 2 ^ (ez - es)) in *.
  assert (HV : Zpos sec * E <= Vz < (Zpos sec + 1) * E).
  { destruct (Z.testbit (Zpos Mp) (n - 1)) eqn:Hb.
    - apply Z.testbit_true in Hb; [|lia].
      assert (Hh : (Zpos mf / 2 ^ (n - 1)) mod 2 = 1).
      { rewrite HM in Hb.
        replace (Zpos ms * 2 ^ n) with (Zpos ms * 2 * 2 ^ (n - 1)) in Hb
          by (replace n with (1 + (n - 1)) at 2 by lia;
              rewrite Z.pow_add_r by lia; rewrite Z.pow_1_r; lia).
        rewrite Z.div_add_l in Hb by (apply Z.pow_nonzero; lia).
        rewrite Z.add_comm, Z.mod_add in Hb by lia. exact Hb. }
      set (h := Zpos mf / 2 ^ (n - 1)) in *.
      assert (Hgh : g = h / 2).
      { unfold g, h. rewrite Z.div_div by (try apply Z.pow_pos_nonneg; lia).
        f_equal. replace n with ((n - 1) + 1) at 1 by lia.
        rewrite Z.pow_add_r by lia. reflexivity. }
      assert (Hh2 : h = 2 * g + 1).
      { pose proof (Z.div_mod h 2 ltac:(lia)). lia. }
      assert (H2n1 : 0 < 2 ^ (n - 1)) by (apply Z.pow_pos_nonneg; lia).
      assert (Hmfh : h * 2 ^ (n - 1) <= Zpos mf).
      { unfold h. pose proof (Z.div_mod (Zpos mf) (2 ^ (n - 1)) ltac:(lia)).
        pose proof (Z.mod_pos_bound (Zpos mf) (2 ^ (n - 1)) H2n1). lia. }
      assert (H2nn : 2 ^ n = 2 * 2 ^ (n - 1)).
      { replace n with (1 + (n - 1)) at 1 by lia.
        rewrite Z.pow_add_r by lia. reflexivity. }
      assert (g + 1 < E).
      { rewrite H2nn in Hfr. change (2 ^ 30) with 1073741824 in Hfr.
        change (2 ^ 29) with 536870912 in HE. nia. }
      rewrite Hg, Hms in Hv. lia.
    - destruct (Hbit ltac:(lia) eq_refl) as [Hq He].
      unfold Vz. rewrite He, Z.sub_diag, Z.mul_1_r, Hq, Hg, Hms. lia. }
  rewrite int_of_float64_neg_exp by lia.
  apply div_between; [apply Z.pow_pos_nonneg; lia|].
  destruct Hez as [-> | ->].
  - unfold Vz in HV. rewrite Z.sub_diag, Z.mul_1_r in HV. fold E. exact HV.
  - unfold Vz in HV. replace (es + 1 - es) with 1 in HV by lia.
    change (2 ^ 1) with 2 in HV.
    assert (HE2 : E = 2 * 2 ^ (- (es + 1))).
    { unfold E. replace (- es) with (1 + - (es + 1)) by lia.
      rewrite Z.pow_add_r by lia. reflexivity. }
    rewrite HE2 in HV. lia.
Qed.

(** [int(d.Seconds())] drops the fraction of a second for every
    duration from zero up to 2^24 seconds. *)
Lemma Seconds_truncates (d : time.Duration) :
  0 <= d < 2 ^ 24 * time.Second ->
  time.int_of_float64 (time.Seconds d) = Z.quot d time.Second.
Proof.
  intros Hd. unfold time.Second in Hd.
  destruct (Z.eq_dec (Z.rem d time.Second) 0) as [Hz|Hnz].
  { apply Seconds_whole; [lia|exact Hz]. }
  assert (Hrem : 0 <= Z.rem d time.Second < 1000000000)
    by (apply Z.rem_bound_pos; unfold time.Second; lia).
  assert (Hq0 : 0 <= Z.quot d time.Second)
    by (apply Z.quot_pos; unfold time.Second; lia).
  assert (Hq1 : Z.quot d time.Second < 2 ^ 24)
    by (apply Z.quot_lt_upper_bound; unfold time.Second; lia).
  unfold time.Seconds, time.float64_of_int, time.prec, time.emax.
  destruct (Z.rem d time.Second) as [|nsec|nsec]; try lia.
  destruct (Seconds_frac nsec) as (mf & ef & Ef & Hef & Hmf & Hfr); [lia|].
  rewrite Ef.
  destruct (Z.quot d time.Second) as [|sec|sec]; try lia.
  - cbn [binary_normalize SFadd].
    rewrite int_of_float64_neg_exp by lia.
    apply Z.div_small.
    assert (2 ^ 53 <= 2 ^ (- ef)) by (apply Z.pow_le_mono_r; lia). lia.
  - apply Seconds_sum; assumption.
Qed.

(** A day is 86400 seconds; a fraction of a second is dropped, toward
    zero.  For durations that are not whole seconds the binary64 sum
    decides: from 2^24 seconds on it can round up to the next integer
    before the conversion. *)
Example Seconds_day :
  time.int_of_float64 (time.Seconds (86400 * time.Second)) = 86400.
Proof. vm_compute. reflexivity. Qed.

Example Seconds_fraction_dropped :
  time.int_of_float64 (time.Seconds 1500000000) = 1
  /\ time.int_of_float64 (time.Seconds (-1500000000)) = -1
  /\ time.int_of_float64 (time.Seconds 999999999) = 0.
Proof. vm_compute. repeat split. Qed.

Example Seconds_rounds_up_when_large :
  time.int_of_float64 (time.Seconds 16777216999999999) = 16777217.
Proof. vm_compute. reflexivity. Qed.

End Seconds.

(** *** Header argument lists *)

Lemma delAllArgs_absent {A} (l : list (string * A)) k :
  k ∉ l.*1 -> fasthttp.delAllArgs l k = l.
Proof.
  induction l as [|[k' a] l IH]; simpl; [reflexivity|].
  rewrite not_elem_of_cons. intros [Hne Hnin].
  destruct (String.eqb_spec k k') as [->|_]; [contradiction|].
  rewrite IH by exact Hnin. reflexivity.
Qed.

Lemma delAllArgs_head {A} (l : list (string * A)) k a :
  k ∉ l.*1 -> fasthttp.delAllArgs ((k, a) :: l) k = l.
Proof.
  intros Hnin. simpl. rewrite String.eqb_refl.
  destruct l as [|e l]; [reflexivity|].
  simpl in Hnin. rewrite not_elem_of_cons in Hnin. destruct Hnin as [_ Hnin].
  rewrite delAllArgs_absent by exact Hnin. reflexivity.
Qed.

Lemma peekArg_absent {A} (l : list (string * A)) k :
  k ∉ l.*1 -> fasthttp.peekArg l k = None.
Proof.
  induction l as [|[k' a] l IH]; simpl; [reflexivity|].
  rewrite not_elem_of_cons. intros [Hne Hnin].
  destruct (String.eqb_spec k k') as [->|_]; [contradiction|].
  apply IH, Hnin.
Qed.

(** With one entry per key at most, [delAllArgs] leaves none under [k]. *)
Lemma delAllArgs_unique {A} (l : list (string * A)) k :
  NoDup (l.*1) -> k ∉ (fasthttp.delAllArgs l k).*1.
Proof.
  induction l as [|[k' a] l IH]; intros Hnd.
  - simpl. apply not_elem_of_nil.
  - simpl in Hnd. apply NoDup_cons in Hnd as [Hk' Hnd].
    destruct (String.eqb_spec k k') as [->|Hne].
    + rewrite delAllArgs_head by exact Hk'. exact Hk'.
    + simpl. destruct (String.eqb_spec k k') as [->|_]; [contradiction|].
      simpl. rewrite not_elem_of_cons. split; [exact Hne|apply IH, Hnd].
Qed.

Lemma setArg_absent {A} (l : list (string * A)) k a :
  fasthttp.peekArg l k = None -> fasthttp.setArg l k a = (l ++ [(k, a)])%list.
Proof.
  induction l as [|[k' a'] l IH]; simpl; [reflexivity|].
  destruct (String.eqb k k'); [discriminate|].
  intros H. rewrite IH by exact H. reflexivity.
Qed.

Lemma peekArg_setArg {A} (l : list (string * A)) k a :
  fasthttp.peekArg (fasthttp.setArg l k a) k = Some a.
Proof.
  induction l as [|[k' a'] l IH]; simpl.
  - rewrite String.eqb_refl. reflexivity.
  - destruct (String.eqb k k') eqn:E; simpl; rewrite E; [reflexivity|exact IH].
Qed.


(** What [delCookie] leaves of the context it works on, and what
    [setCookie] leaves of it. *)
Definition revoke (cfg : Store) (t : time.Time) (x : Ctx) : Ctx :=
  Response_SetCookie (expired_cookie cfg t)
    (Response_DelCookie (CookieName cfg)
       (Request_DelCookie (CookieName cfg) x)).

Definition issue (cfg : Store) (id : string) (t : time.Time) (x : Ctx) : Ctx :=
  Response_SetCookie (issued_cookie cfg id t) x.

(** The fields of the two cookies.  [SetSameSite] comes last and, for
    the None mode, overrides the secure flag set before it. *)
Definition secure_flag (cfg : Store) : bool :=
  match sameSiteMode (CookieSameSite cfg) with
  | fasthttp.CookieSameSiteNoneMode => true
  | _ => CookieSecure cfg
  end.

Lemma issued_cookie_fields (cfg : Store) (id : string) (t : time.Time) :
  issued_cookie cfg id t
  = fasthttp.mkCookie (CookieName cfg) id (normalizePath (CookiePath cfg))
      (CookieDomain cfg)
      (time.int_of_float64 (time.Seconds (Expiration cfg)))
      (Some (t + Expiration cfg)%Z) (secure_flag cfg) (CookieHTTPOnly cfg)
      (sameSiteMode (CookieSameSite cfg)).
Proof.
  unfold issued_cookie, secure_flag, fasthttp.SetSameSite.
  destruct (sameSiteMode (CookieSameSite cfg)); reflexivity.
Qed.

Lemma expired_cookie_fields (cfg : Store) (t : time.Time) :
  expired_cookie cfg t
  = fasthttp.mkCookie (CookieName cfg) EmptyString
      (normalizePath (CookiePath cfg)) (CookieDomain cfg) (-1)%Z
      (Some (t - 60 * 1000000000)%Z) (secure_flag cfg) (CookieHTTPOnly cfg)
      (sameSiteMode (CookieSameSite cfg)).
Proof.
  unfold expired_cookie, secure_flag, fasthttp.SetSameSite.
  destruct (sameSiteMode (CookieSameSite cfg)); reflexivity.
Qed.

Lemma peek_issue (cfg : Store) id t (x : Ctx) :
  fasthttp.peekArg (resp_cookies (issue cfg id t x)) (CookieName cfg)
  = Some (issued_cookie cfg id t).
Proof.
  unfold issue, Response_SetCookie. simpl.
  rewrite issued_cookie_fields. simpl. apply peekArg_setArg.
Qed.

Lemma peek_revoke (cfg : Store) t (x : Ctx) :
  fasthttp.peekArg (resp_cookies (revoke cfg t x)) (CookieName cfg)
  = Some (expired_cookie cfg t).
Proof.
  unfold revoke, Response_SetCookie. simpl.
  rewrite expired_cookie_fields. simpl. apply peekArg_setArg.
Qed.

Lemma delCookie_done (w : World) s o cfg c x :
  sessions w !! s = Some o ->
  s_config o = Some cfg ->
  s_ctx o = Some c ->
  ctxs w !! c = Some x ->
  delCookie s w = Done tt (set_ctxs (insert c (revoke cfg (now w) x)) w).
Proof.
  intros Hs Hc Hx Hl. unfold delCookie. exec.
  unfold set_ctxs. simpl. rewrite !insert_insert_eq. reflexivity.
Qed.

Lemma setCookie_done (w : World) s o cfg c x :
  sessions w !! s = Some o ->
  s_config o = Some cfg ->
  s_ctx o = Some c ->
  ctxs w !! c = Some x ->
  setCookie s w = Done tt (set_ctxs (insert c (issue cfg (s_id o) (now w) x)) w).
Proof.
  intros Hs Hc Hx Hl. unfold setCookie. exec. reflexivity.
Qed.

(** Neither cookie routine writes to a session, to the pool or to the
    external state, also when it panics half-way. *)
Lemma delCookie_frame (w : World) s :
  let w' := world_of (delCookie s w) in
  sessions w' = sessions w /\ sessionPool w' = sessionPool w /\ ext w' = ext w.
Proof.
  unfold delCookie.
  destruct (sessions w !! s) as [o|] eqn:Hs; [|exec; auto].
  destruct (s_ctx o) as [c|] eqn:Hx; [|exec; auto].
  destruct (s_config o) as [cfg|] eqn:Hc; [|exec; auto].
  destruct (ctxs w !! c) as [x|] eqn:Hl; exec; auto.
Qed.

Lemma setCookie_frame (w : World) s :
  let w' := world_of (setCookie s w) in
  sessions w' = sessions w /\ sessionPool w' = sessionPool w /\ ext w' = ext w.
Proof.
  unfold setCookie.
  destruct (sessions w !! s) as [o|] eqn:Hs; [|exec; auto].
  destruct (s_config o) as [cfg|] eqn:Hc; [|exec; auto].
  destruct (s_ctx o) as [c|] eqn:Hx; [|exec; auto].
  destruct (ctxs w !! c) as [x|] eqn:Hl; exec; auto.
Qed.

(** *** What each lifecycle method returns, case by case *)

(** The released state of a session object. *)
Definition released (o : Session) : Session :=
  mkSession None None
    (match s_db o with Some d => Some (db_Reset d) | None => None end)
    EmptyString true.

Lemma releaseSession_done (w : World) s o :
  sessions w !! s = Some o ->
  releaseSession s w
  = Done tt (set_sessionPool (cons s) (set_sessions (insert s (released o)) w)).
Proof.
  intros Hs. unfold releaseSession. exec.
  destruct (s_db o) as [d|] eqn:Hd; exec;
    unfold set_sessionPool, set_sessions, released,
      with_fresh, with_id, with_db, with_config, with_ctx; simpl;
    rewrite ?insert_insert_eq, ?Hd; reflexivity.
Qed.

Lemma Destroy_failed (w : World) s o d cfg e ext' :
  sessions w !! s = Some o ->
  s_db o = Some d ->
  s_config o = Some cfg ->
  Storage_Delete (Storage cfg) (s_id o) (ext w) = (Some e, ext') ->
  Destroy s w
  = Done (Some e)
      (set_ext ext' (set_sessions (insert s (with_db (Some []) o)) w)).
Proof. intros Hs Hd Hc Hdel. unfold Destroy. exec. reflexivity. Qed.

Lemma Destroy_done (w : World) s o d cfg ext' c x :
  sessions w !! s = Some o ->
  s_db o = Some d ->
  s_config o = Some cfg ->
  Storage_Delete (Storage cfg) (s_id o) (ext w) = (None, ext') ->
  s_ctx o = Some c ->
  ctxs w !! c = Some x ->
  Destroy s w
  = Done None
      (set_ctxs (insert c (revoke cfg (now w) x))
         (set_ext ext' (set_sessions (insert s (with_db (Some []) o)) w))).
Proof.
  intros Hs Hd Hc Hdel Hx Hl. unfold Destroy. exec.
  erewrite delCookie_done; [reflexivity|apply lookup_insert_eq|..]; eauto.
Qed.

Lemma Save_done (w : World) s o d data cfg ext' c x :
  sessions w !! s = Some o ->
  s_db o = Some d ->
  (0 < db_Len d)%Z ->
  MarshalMsg d = (data, None) ->
  s_config o = Some cfg ->
  Storage_Set (Storage cfg) (s_id o) data (Expiration cfg) (ext w)
    = (None, ext') ->
  s_ctx o = Some c ->
  ctxs w !! c = Some x ->
  Save s w
  = Done None
      (set_sessionPool (cons s)
         (set_sessions (insert s (released o))
            (set_ctxs (insert c (issue cfg (s_id o) (now w) x))
               (set_ext ext' w)))).
Proof.
  intros Hs Hd Hlen Hm Hc Hset Hx Hl. apply db_Len_pos in Hlen.
  unfold Save. exec.
  erewrite setCookie_done; eauto. simpl.
  erewrite releaseSession_done; eauto.
Qed.

Lemma Regenerate_done (w : World) s o cfg ext' id ext'' :
  sessions w !! s = Some o ->
  s_config o = Some cfg ->
  Storage_Delete (Storage cfg) (s_id o) (ext w) = (None, ext') ->
  KeyGenerator cfg ext' = (id, ext'') ->
  Regenerate s w
  = Done None (set_sessions (insert s (with_id id o)) (set_ext ext'' w)).
Proof. intros Hs Hc Hdel Hgen. unfold Regenerate. exec. reflexivity. Qed.

(** Conversely: a nil result determines the path that was taken. *)
Lemma Regenerate_nil_inv (w w' : World) s o :
  sessions w !! s = Some o ->
  Regenerate s w = Done None w' ->
  exists cfg ext' id ext'',
    s_config o = Some cfg
    /\ Storage_Delete (Storage cfg) (s_id o) (ext w) = (None, ext')
    /\ KeyGenerator cfg ext' = (id, ext'')
    /\ w' = set_sessions (insert s (with_id id o)) (set_ext ext'' w).
Proof.
  intros Hs H.
  destruct (s_config o) as [cfg|] eqn:Hc;
    [|revert H; unfold Regenerate; exec; discriminate].
  destruct (Storage_Delete (Storage cfg) (s_id o) (ext w))
    as [[e|] ext'] eqn:Hdel;
    [revert H; unfold Regenerate; exec; discriminate|].
  destruct (KeyGenerator cfg ext') as [id ext''] eqn:Hgen.
  rewrite (Regenerate_done w s o cfg ext' id ext'') in H by assumption.
  injection H as <-. exists cfg, ext', id, ext''. auto.
Qed.

Lemma Destroy_nil_inv (w w' : World) s o :
  sessions w !! s = Some o ->
  Destroy s w = Done None w' ->
  exists d cfg ext' c x,
    s_db o = Some d
    /\ s_config o = Some cfg
    /\ Storage_Delete (Storage cfg) (s_id o) (ext w) = (None, ext')
    /\ s_ctx o = Some c
    /\ ctxs w !! c = Some x
    /\ w' = set_ctxs (insert c (revoke cfg (now w) x))
              (set_ext ext' (set_sessions (insert s (with_db (Some []) o)) w)).
Proof.
  intros Hs H.
  destruct (s_db o) as [d|] eqn:Hd;
    [|revert H; unfold Destroy; exec; discriminate].
  destruct (s_config o) as [cfg|] eqn:Hc;
    [|revert H; unfold Destroy; exec; discriminate].
  destruct (Storage_Delete (Storage cfg) (s_id o) (ext w))
    as [[e|] ext'] eqn:Hdel;
    [revert H; unfold Destroy; exec; discriminate|].
  destruct (s_ctx o) as [c|] eqn:Hx;
    [|revert H; unfold Destroy, delCookie; exec; discriminate].
  destruct (ctxs w !! c) as [x|] eqn:Hl;
    [|revert H; unfold Destroy, delCookie; exec; discriminate].
  rewrite (Destroy_done w s o d cfg ext' c x) in H by assumption.
  injection H as <-. exists d, cfg, ext', c, x.
  repeat split; assumption || reflexivity.
Qed.

Lemma Save_nil_inv (w w' : World) s o d :
  sessions w !! s = Some o ->
  s_db o = Some d ->
  (0 < db_Len d)%Z ->
  Save s w = Done None w' ->
  exists data cfg ext' c x,
    MarshalMsg d = (data, None)
    /\ s_config o = Some cfg
    /\ Storage_Set (Storage cfg) (s_id o) data (Expiration cfg) (ext w)
       = (None, ext')
    /\ s_ctx o = Some c
    /\ ctxs w !! c = Some x
    /\ w' = set_sessionPool (cons s)
              (set_sessions (insert s (released o))
                 (set_ctxs (insert c (issue cfg (s_id o) (now w) x))
                    (set_ext ext' w))).
Proof.
  intros Hs Hd Hlen H. pose proof (db_Len_pos _ Hlen) as Hlen'.
  destruct (MarshalMsg d) as [data [e|]] eqn:Hm;
    [revert H; unfold Save; exec; discriminate|].
  destruct (s_config o) as [cfg|] eqn:Hc;
    [|revert H; unfold Save; exec; discriminate].
  destruct (Storage_Set (Storage cfg) (s_id o) data (Expiration cfg) (ext w))
    as [[e|] ext'] eqn:Hset;
    [revert H; unfold Save; exec; discriminate|].
  destruct (s_ctx o) as [c|] eqn:Hx;
    [|revert H; unfold Save, setCookie; exec; discriminate].
  destruct (ctxs w !! c) as [x|] eqn:Hl;
    [|revert H; unfold Save, setCookie; exec; discriminate].
  rewrite (Save_done w s o d data cfg ext' c x) in H by assumption.
  injection H as <-. exists data, cfg, ext', c, x.
  repeat split; assumption || reflexivity.
Qed.

(** *** What each method can do to the sessions and to the pool,
    whatever its outcome *)

Lemma Fresh_world (w : World) s : world_of (Fresh s w) = w.
Proof. unfold Fresh. exec. destruct (sessions w !! s); reflexivity. Qed.

Lemma ID_world (w : World) s : world_of (ID s w) = w.
Proof. unfold ID. exec. destruct (sessions w !! s); reflexivity. Qed.

Lemma Get_world (w : World) s k : world_of (Get s k w) = w.
Proof.
  unfold Get. exec. destruct (sessions w !! s) as [o|]; [|reflexivity].
  simpl. destruct (s_db o); reflexivity.
Qed.

Lemma Set_world (w : World) s k v :
  let w' := world_of (Set_ s k v w) in
  sessionPool w' = sessionPool w
  /\ (sessions w' = sessions w
      \/ exists o d, sessions w !! s = Some o
           /\ sessions w' = <[s := with_db (Some d) o]> (sessions w)).
Proof.
  unfold Set_.
  destruct (sessions w !! s) as [o|] eqn:Hs; [|exec; auto].
  destruct (s_db o) as [d|] eqn:Hd; [|exec; auto].
  exec. split; [reflexivity|]. right. eauto.
Qed.

Lemma Delete_world (w : World) s k :
  let w' := world_of (Delete s k w) in
  sessionPool w' = sessionPool w
  /\ (sessions w' = sessions w
      \/ exists o d, sessions w !! s = Some o
           /\ sessions w' = <[s := with_db (Some d) o]> (sessions w)).
Proof.
  unfold Delete.
  destruct (sessions w !! s) as [o|] eqn:Hs; [|exec; auto].
  destruct (s_db o) as [d|] eqn:Hd; [|exec; auto].
  exec. split; [reflexivity|]. right. eauto.
Qed.

Lemma Destroy_world (w : World) s :
  let w' := world_of (Destroy s w) in
  sessionPool w' = sessionPool w
  /\ (sessions w' = sessions w
      \/ exists o d, sessions w !! s = Some o
           /\ sessions w' = <[s := with_db (Some d) o]> (sessions w)).
Proof.
  unfold Destroy.
  destruct (sessions w !! s) as [o|] eqn:Hs; [|exec; auto].
  destruct (s_db o) as [d|] eqn:Hd; [|exec; auto].
  destruct (s_config o) as [cfg|] eqn:Hc;
    [|exec; split; [reflexivity|right; eauto]].
  destruct (Storage_Delete (Storage cfg) (s_id o) (ext w))
    as [[e|] ext'] eqn:Hdel;
    [exec; split; [reflexivity|right; eauto]|].
  exec.
  match goal with
  | |- context [delCookie s ?W] =>
      pose proof (delCookie_frame W s) as (Hf & Hp & _);
      destruct (delCookie s W) as [[] w2|w2]
  end; simpl in *; rewrite Hf, Hp; (split; [reflexivity|right; eauto]).
Qed.

Lemma Regenerate_world (w : World) s :
  let w' := world_of (Regenerate s w) in
  sessionPool w' = sessionPool w
  /\ ctxs w' = ctxs w
  /\ (sessions w' = sessions w
      \/ exists o cfg id, sessions w !! s = Some o
           /\ s_config o = Some cfg
           /\ sessions w' = <[s := with_id id o]> (sessions w)).
Proof.
  unfold Regenerate.
  destruct (sessions w !! s) as [o|] eqn:Hs; [|exec; auto].
  destruct (s_config o) as [cfg|] eqn:Hc; [|exec; auto].
  destruct (Storage_Delete (Storage cfg) (s_id o) (ext w))
    as [[e|] ext'] eqn:Hdel; [exec; auto|].
  destruct (KeyGenerator cfg ext') as [id ext''] eqn:Hgen.
  exec. split; [reflexivity|]. split; [reflexivity|]. right.
  exists o, cfg, id. auto.
Qed.

Lemma Save_world (w : World) s :
  let w' := world_of (Save s w) in
  (sessions w' = sessions w /\ sessionPool w' = sessionPool w)
  \/ (exists o cfg, sessions w !! s = Some o
        /\ s_config o = Some cfg
        /\ sessions w' = <[s := released o]> (sessions w)
        /\ sessionPool w' = s :: sessionPool w
        /\ exists w'', Save s w = Done None w'').
Proof.
  destruct (sessions w !! s) as [o|] eqn:Hs; [|unfold Save; exec; auto].
  destruct (s_db o) as [d|] eqn:Hd; [|unfold Save; exec; auto].
  destruct (db_Len d <=? 0)%Z eqn:Hlen; [unfold Save; exec; auto|].
  destruct (MarshalMsg d) as [data [e|]] eqn:Hm; [unfold Save; exec; auto|].
  destruct (s_config o) as [cfg|] eqn:Hc; [|unfold Save; exec; auto].
  destruct (Storage_Set (Storage cfg) (s_id o) data (Expiration cfg) (ext w))
    as [[e|] ext'] eqn:Hset; [unfold Save; exec; auto|].
  destruct (s_ctx o) as [c|] eqn:Hx; [|unfold Save, setCookie; exec; auto].
  destruct (ctxs w !! c) as [x|] eqn:Hl; [|unfold Save, setCookie; exec; auto].
  apply Z.leb_gt in Hlen.
  rewrite (Save_done w s o d data cfg ext' c x) by assumption.
  right. exists o, cfg. simpl. eauto 10.
Qed.

(** *** Acquisition *)

Lemma acquireSession_recycled (w : World) i s o :
  sessionPool w !! i = Some s ->
  sessions w !! s = Some o ->
  acquireSession (Some i) w
  = Done s (set_sessions (insert s (with_fresh true (with_db (Some []) o)))
              (set_sessionPool (delete i) w)).
Proof.
  intros Hi Hs. unfold acquireSession, pool_Get. exec.
  unfold set_sessions, set_sessionPool. simpl.
  rewrite insert_insert_eq. reflexivity.
Qed.

Lemma acquireSession_new (w : World) pick :
  match pick with
  | Some i => sessionPool w !! i = None
  | None => True
  end ->
  acquireSession pick w
  = Done (fresh (dom (sessions w)))
      (set_sessions
         (insert (fresh (dom (sessions w)))
                 (with_fresh true (with_db (Some []) new_Session))) w).
Proof.
  intros Hpick.
  destruct pick as [i|]; unfold acquireSession, pool_Get, pool_New; exec;
    unfold set_sessions; simpl; rewrite !insert_insert_eq; reflexivity.
Qed.

(** What [Store_Get] does after the acquisition: five field writes on the
    acquired object. *)
Lemma Store_Get_after (w w1 : World) cfg c pick id fr loaded s o :
  acquireSession pick w = Done s w1 ->
  sessions w1 !! s = Some o ->
  Store_Get cfg c pick id fr loaded w
  = Done s (set_sessions
              (insert s (mkSession (Some c) (Some cfg) (Some loaded) id fr))
              w1).
Proof.
  intros Ha Hs. unfold Store_Get.
  unfold mbind at 1. unfold M_bind at 1. rewrite Ha. exec.
  unfold set_sessions. simpl. rewrite !insert_insert_eq. reflexivity.
Qed.

(** *** The pool invariant *)

Lemma pool_clean_initial (w : World) : initial w -> pool_clean w.
Proof.
  intros [_ Hp]. unfold pool_clean. rewrite Hp. split.
  - apply NoDup_nil_2.
  - intros p Hin. apply elem_of_nil in Hin. contradiction.
Qed.

(** A step that keeps the pool, and keeps context, Store and identifier
    of every object that has no Store attached, keeps the invariant. *)
Definition detached_kept (w w' : World) : Prop :=
  forall q o, sessions w !! q = Some o -> s_config o = None ->
    exists o', sessions w' !! q = Some o'
      /\ s_ctx o' = s_ctx o /\ s_config o' = None /\ s_id o' = s_id o.

Lemma pool_clean_kept (w w' : World) :
  pool_clean w ->
  sessionPool w' = sessionPool w ->
  detached_kept w w' ->
  pool_clean w'.
Proof.
  intros [Hnd Hcl] Hp Hk. unfold pool_clean. rewrite Hp.
  split; [exact Hnd|].
  intros p Hin. destruct (Hcl p Hin) as (o & Ho & Hx & Hc & Hi).
  destruct (Hk p o Ho Hc) as (o' & Ho' & Hx' & Hc' & Hi').
  exists o'. repeat split; congruence.
Qed.

Lemma detached_kept_same (w w' : World) :
  sessions w' = sessions w -> detached_kept w w'.
Proof. intros E q o Ho Hc. rewrite E. eauto. Qed.

Lemma detached_kept_db (w w' : World) s o d :
  sessions w !! s = Some o ->
  sessions w' = <[s := with_db d o]> (sessions w) ->
  detached_kept w w'.
Proof.
  intros Hs E q o' Ho' Hc. rewrite E.
  destruct (decide (s = q)) as [->|Hne].
  - rewrite lookup_insert_eq. replace o' with o by congruence.
    exists (with_db d o). repeat split. simpl. congruence.
  - rewrite lookup_insert_ne by exact Hne. eauto.
Qed.

Lemma detached_kept_attached (w w' : World) s o cfg o1 :
  sessions w !! s = Some o ->
  s_config o = Some cfg ->
  sessions w' = <[s := o1]> (sessions w) ->
  detached_kept w w'.
Proof.
  intros Hs Hc E q o' Ho' Hc'. rewrite E.
  destruct (decide (s = q)) as [->|Hne]; [congruence|].
  rewrite lookup_insert_ne by exact Hne. eauto.
Qed.

Lemma pool_clean_release (w w' : World) s o cfg :
  pool_clean w ->
  sessions w !! s = Some o ->
  s_config o = Some cfg ->
  sessions w' = <[s := released o]> (sessions w) ->
  sessionPool w' = s :: sessionPool w ->
  pool_clean w'.
Proof.
  intros [Hnd Hcl] Hs Hc Es Ep.
  assert (Hnin : s ∉ sessionPool w).
  { intros Hin. destruct (Hcl s Hin) as (o' & Ho' & _ & Hc' & _). congruence. }
  unfold pool_clean. rewrite Ep, Es. split.
  - apply NoDup_cons_2; assumption.
  - intros p Hin. apply elem_of_cons in Hin as [->|Hin].
    + exists (released o). rewrite lookup_insert_eq. repeat split.
    + rewrite lookup_insert_ne by (intros ->; contradiction).
      apply Hcl, Hin.
Qed.

Lemma pool_clean_recycle (w : World) i s (o1 : Session) :
  pool_clean w ->
  sessionPool w !! i = Some s ->
  pool_clean (set_sessions (insert s o1) (set_sessionPool (delete i) w))
  /\ s ∉ delete i (sessionPool w).
Proof.
  intros [Hnd Hcl] Hi.
  pose proof (delete_Permutation _ _ _ Hi) as HP.
  rewrite HP in Hnd. apply NoDup_cons in Hnd as [Hnin Hnd'].
  split; [|exact Hnin]. split; simpl.
  - exact Hnd'.
  - intros p Hin.
    rewrite lookup_insert_ne by (intros ->; contradiction).
    apply Hcl. eapply list_elem_of_delete_inv, Hin.
Qed.

Lemma pool_clean_alloc (w : World) (o1 : Session) :
  pool_clean w ->
  pool_clean (set_sessions (insert (fresh (dom (sessions w))) o1) w)
  /\ fresh (dom (sessions w)) ∉ sessionPool w.
Proof.
  intros [Hnd Hcl].
  assert (Hnin : fresh (dom (sessions w)) ∉ sessionPool w).
  { intros Hin. destruct (Hcl _ Hin) as (o & Ho & _).
    apply (is_fresh (dom (sessions w))). apply elem_of_dom. eauto. }
  split; [|exact Hnin]. split; simpl.
  - exact Hnd.
  - intros p Hin.
    rewrite lookup_insert_ne by (intros <-; contradiction).
    apply Hcl, Hin.
Qed.

(** What an acquisition returns in a world with a clean pool. *)
Lemma acquireSession_clean (w : World) pick :
  pool_clean w ->
  exists s w' o,
    acquireSession pick w = Done s w'
    /\ sessions w' !! s = Some o
    /\ s_db o = Some []
    /\ s_fresh o = true
    /\ s_id o = EmptyString
    /\ s_config o = None
    /\ s_ctx o = None
    /\ (s ∉ sessionPool w')
    /\ (forall o1, pool_clean (set_sessions (insert s o1) w')).
Proof.
  intros Hcl.
  assert (Hcases : (exists i s, pick = Some i /\ sessionPool w !! i = Some s)
                   \/ match pick with
                      | Some i => sessionPool w !! i = None
                      | None => True
                      end).
  { destruct pick as [i|]; [|right; exact I].
    destruct (sessionPool w !! i) as [s|] eqn:Hi; [left; eauto|right].
    reflexivity. }
  destruct Hcases as [(i & s & -> & Hi)|Hnew].
  - destruct Hcl as [Hnd Hall].
    destruct (Hall s) as (o & Ho & Hx & Hc & Hid).
    { eapply list_elem_of_lookup_2, Hi. }
    destruct (pool_clean_recycle w i s o (conj Hnd Hall) Hi) as [_ Hnin].
    eexists s, _, (with_fresh true (with_db (Some []) o)).
    split; [apply acquireSession_recycled; eassumption|].
    split; [apply lookup_insert_eq|].
    do 5 (split; [reflexivity || assumption|]).
    split; [exact Hnin|].
    intros o1.
    destruct (pool_clean_recycle w i s o1 (conj Hnd Hall) Hi) as [Hcl' _].
    unfold set_sessions, set_sessionPool in *. simpl in *.
    rewrite insert_insert_eq. exact Hcl'.
  - destruct (pool_clean_alloc w new_Session Hcl) as [_ Hnin].
    eexists _, _, (with_fresh true (with_db (Some []) new_Session)).
    split; [apply acquireSession_new; exact Hnew|].
    split; [apply lookup_insert_eq|].
    do 5 (split; [reflexivity|]).
    split; [exact Hnin|].
    intros o1. destruct (pool_clean_alloc w o1 Hcl) as [Hcl' _].
    unfold set_sessions in *. simpl in *.
    rewrite insert_insert_eq. exact Hcl'.
Qed.

Lemma pool_clean_run_op (a : op) (w : World) :
  pool_clean w -> pool_clean (run_op a w).
Proof.
  intros Hcl. destruct a as [cfg c pick id fr loaded|s|s|s k|s k v|s k|s|s|s];
    simpl.
  - destruct (acquireSession_clean w pick Hcl)
      as (s & w1 & o & Ha & Ho & _ & _ & _ & _ & _ & _ & Hcl1).
    rewrite (Store_Get_after w w1 cfg c pick id fr loaded s o Ha Ho).
    apply Hcl1.
  - rewrite Fresh_world. exact Hcl.
  - rewrite ID_world. exact Hcl.
  - rewrite Get_world. exact Hcl.
  - destruct (Set_world w s k v) as [Hp [Hs|(o & d & Ho & Hs)]];
      eapply pool_clean_kept;
      eauto using detached_kept_same, detached_kept_db.
  - destruct (Delete_world w s k) as [Hp [Hs|(o & d & Ho & Hs)]];
      eapply pool_clean_kept;
      eauto using detached_kept_same, detached_kept_db.
  - destruct (Destroy_world w s) as [Hp [Hs|(o & d & Ho & Hs)]];
      eapply pool_clean_kept;
      eauto using detached_kept_same, detached_kept_db.
  - destruct (Regenerate_world w s)
      as (Hp & _ & [Hs|(o & cfg & id & Ho & Hc & Hs)]);
      eapply pool_clean_kept;
      eauto using detached_kept_same, detached_kept_attached.
  - destruct (Save_world w s)
      as [[Hs Hp]|(o & cfg & Ho & Hc & Hs & Hp & _)].
    + eapply pool_clean_kept; eauto using detached_kept_same.
    + eapply pool_clean_release; eauto.
Qed.

Lemma pool_clean_step (w w' : World) :
  step w w' -> pool_clean w -> pool_clean w'.
Proof.
  intros [a w0|i w0|w0 cs e t] Hcl.
  - apply pool_clean_run_op, Hcl.
  - destruct Hcl as [Hnd Hall]. split; simpl.
    + eapply sublist_NoDup; [exact Hnd|apply sublist_delete].
    + intros p Hin. apply Hall. eapply list_elem_of_delete_inv, Hin.
  - exact Hcl.
Qed.

Lemma pool_clean_reachable (w : World) : reachable w -> pool_clean w.
Proof.
  intros (w0 & Hinit & Hrun). apply pool_clean_initial in Hinit.
  induction Hrun as [w0|w0 w1 w2 Hstep _ IH]; [exact Hinit|].
  apply IH. eapply pool_clean_step; eassumption.
Qed.

(** C1. A Save on a session whose record is empty returns nil and leaves
    the whole world as it was: the external state behind the storage
    backend is untouched whatever the backend's [Set] would do to it (no
    write), the response cookies of every context are untouched (no
    cookie issued), and neither the session nor the pool changes. *)
Theorem Save_empty_record_is_noop (w : World) (s : loc) (o : Session) (d : db) :
  sessions w !! s = Some o ->
  s_db o = Some d ->
  db_Len d = 0%Z ->
  Save s w = Done None w.
Proof.
  intros Hs Hd Hlen. unfold Save. exec. reflexivity.
Qed.

(** C2. A Save of a non-empty record that fails returns the error of the
    failing step, and leaves the session object (identifier, record,
    freshness flag, Store reference), every context's cookies and the pool
    as they were: when the encoding fails nothing at all changes; when the
    backend's [Set] fails only the external state is what the backend left
    behind. *)
Theorem Save_failure_keeps_session (w : World) (s : loc) (o : Session) (d : db) :
  sessions w !! s = Some o ->
  s_db o = Some d ->
  (0 < db_Len d)%Z ->
  (forall data e, MarshalMsg d = (data, Some e) ->
     Save s w = Done (Some e) w)
  /\
  (forall data cfg e ext',
     MarshalMsg d = (data, None) ->
     s_config o = Some cfg ->
     Storage_Set (Storage cfg) (s_id o) data (Expiration cfg) (ext w)
       = (Some e, ext') ->
     exists w', Save s w = Done (Some e) w'
       /\ sessions w' = sessions w
       /\ ctxs w' = ctxs w
       /\ sessionPool w' = sessionPool w
       /\ ext w' = ext').
Proof.
  intros Hs Hd Hlen. apply db_Len_pos in Hlen. split.
  - intros data e Hm. unfold Save. exec. reflexivity.
  - intros data cfg e ext' Hm Hc Hset.
    exists (set_ext ext' w). split; [|repeat split].
    unfold Save. exec. reflexivity.
Qed.

(** C4. Regenerate first deletes the current identifier from the backend.
    When that fails the error is returned and the session object is
    unchanged (the identifier with it); when it succeeds the identifier
    becomes what the Store's key generator returns and the result is
    nil. *)
Theorem Regenerate_rotates_or_keeps (w : World) (s : loc) (o : Session) (cfg : Store) :
  sessions w !! s = Some o ->
  s_config o = Some cfg ->
  (forall e ext',
     Storage_Delete (Storage cfg) (s_id o) (ext w) = (Some e, ext') ->
     exists w', Regenerate s w = Done (Some e) w'
       /\ sessions w' = sessions w
       /\ ID s w' = Done (s_id o) w')
  /\
  (forall ext' id ext'',
     Storage_Delete (Storage cfg) (s_id o) (ext w) = (None, ext') ->
     KeyGenerator cfg ext' = (id, ext'') ->
     exists w', Regenerate s w = Done None w'
       /\ sessions w' = <[s := with_id id o]> (sessions w)
       /\ ID s w' = Done id w').
Proof.
  intros Hs Hc. split.
  - intros e ext' Hdel. exists (set_ext ext' w).
    unfold Regenerate, ID. exec. auto.
  - intros ext' id ext'' Hdel Hgen.
    exists (set_sessions (insert s (with_id id o)) (set_ext ext'' w)).
    unfold Regenerate, ID. exec. auto.
Qed.

(** C5. Destroy resets the local record first, so the record is empty in
    the world Destroy ends in whatever happens next (a failing backend, or
    even a panic on a nil Store or context).  When the backend's [Delete]
    fails, Destroy returns that error and no context is written: no
    revocation directive is emitted.  When it succeeds, Destroy returns
    nil and the response of the session's context holds, under the
    configured cookie name, the revocation directive: a cookie of that
    name with no value, maxAge -1 and an expiry one minute before the
    current time. *)
Theorem Destroy_resets_then_deletes (w : World) (s : loc) (o : Session) (d : db) :
  sessions w !! s = Some o ->
  s_db o = Some d ->
  (exists o', sessions (world_of (Destroy s w)) !! s = Some o'
              /\ s_db o' = Some [])
  /\
  (forall cfg e ext',
     s_config o = Some cfg ->
     Storage_Delete (Storage cfg) (s_id o) (ext w) = (Some e, ext') ->
     exists w', Destroy s w = Done (Some e) w'
       /\ sessions w' = <[s := with_db (Some []) o]> (sessions w)
       /\ ctxs w' = ctxs w)
  /\
  (forall cfg ext' c x,
     s_config o = Some cfg ->
     Storage_Delete (Storage cfg) (s_id o) (ext w) = (None, ext') ->
     s_ctx o = Some c ->
     ctxs w !! c = Some x ->
     exists w' x' fc, Destroy s w = Done None w'
       /\ sessions w' = <[s := with_db (Some []) o]> (sessions w)
       /\ ctxs w' !! c = Some x'
       /\ fasthttp.peekArg (resp_cookies x') (CookieName cfg) = Some fc
       /\ fasthttp.key fc = CookieName cfg
       /\ fasthttp.value fc = EmptyString
       /\ fasthttp.maxAge fc = (-1)%Z
       /\ fasthttp.expire fc = Some (now w - 60 * 1000000000)%Z).
Proof.
  intros Hs Hd. split; [|split].
  - exists (with_db (Some []) o). split; [|reflexivity].
    unfold Destroy.
    destruct (s_config o) as [cfg|] eqn:Hc; [|exec; reflexivity].
    destruct (Storage_Delete (Storage cfg) (s_id o) (ext w))
      as [[e|] ext'] eqn:Hdel; [exec; reflexivity|].
    exec.
    match goal with
    | |- context [delCookie s ?W] =>
        pose proof (delCookie_frame W s) as [Hf _];
        destruct (delCookie s W) as [[] w2|w2]
    end; simpl in *; rewrite Hf; apply lookup_insert_eq.
  - intros cfg e ext' Hc Hdel. eexists. split; [|split].
    + eapply Destroy_failed; eauto.
    + reflexivity.
    + reflexivity.
  - intros cfg ext' c x Hc Hdel Hx Hl.
    eexists _, (revoke cfg (now w) x), (expired_cookie cfg (now w)).
    split; [eapply Destroy_done; eauto|].
    split; [reflexivity|].
    split; [apply lookup_insert_eq|].
    split; [apply peek_revoke|].
    rewrite expired_cookie_fields. repeat split.
Qed.

(** The session object [s] sits in the pool in its released state. *)
Definition is_released (s : loc) (w : World) : Prop :=
  s ∈ sessionPool w
  /\ exists o, sessions w !! s = Some o
       /\ s_config o = None
       /\ s_ctx o = None
       /\ s_id o = EmptyString
       /\ (exists d, s_db o = Some d /\ db_Len d = 0%Z)
       /\ s_fresh o = true.

(** C3 (as amended). Whenever Save returns nil on a session whose record
    is not empty, the object has been released to the pool: it is among
    the pooled objects, its Store reference and request context are nil,
    its identifier is the empty string, its record is empty and its
    freshness flag is true. *)
Theorem Save_nonempty_success_releases (w w' : World) (s : loc) (o : Session) (d : db) :
  sessions w !! s = Some o ->
  s_db o = Some d ->
  (0 < db_Len d)%Z ->
  Save s w = Done None w' ->
  is_released s w'.
Proof.
  intros Hs Hd Hlen H.
  destruct (Save_nil_inv w w' s o d Hs Hd Hlen H)
    as (data & cfg & ext' & c & x & _ & _ & _ & _ & _ & ->).
  split; simpl.
  - apply list_elem_of_here.
  - exists (released o). rewrite lookup_insert_eq. unfold released.
    rewrite Hd. simpl. repeat split; try reflexivity.
    exists []. split; reflexivity.
Qed.

(** C10. A successful Regenerate writes the identifier field of the
    session object and nothing else of it: record, freshness flag, Store
    reference and request context are those from before, no other session
    object, no context and not the pool is touched, and every key reads
    through Get as it did before the rotation. *)
Theorem Regenerate_changes_only_id (w w' : World) (s : loc) (o : Session) :
  sessions w !! s = Some o ->
  Regenerate s w = Done None w' ->
  (exists o', sessions w' !! s = Some o'
     /\ s_db o' = s_db o
     /\ s_fresh o' = s_fresh o
     /\ s_config o' = s_config o
     /\ s_ctx o' = s_ctx o)
  /\ (forall q, q <> s -> sessions w' !! q = sessions w !! q)
  /\ ctxs w' = ctxs w
  /\ sessionPool w' = sessionPool w
  /\ (forall k v, Get s k w = Done v w -> Get s k w' = Done v w').
Proof.
  intros Hs H.
  destruct (Regenerate_nil_inv w w' s o Hs H)
    as (cfg & ext' & id & ext'' & Hc & Hdel & Hgen & ->).
  split; [|split; [|split; [|split]]]; simpl.
  - exists (with_id id o). rewrite lookup_insert_eq. auto.
  - intros q Hq. apply lookup_insert_ne. congruence.
  - reflexivity.
  - reflexivity.
  - intros k v. unfold Get. exec.
    destruct (s_db o) as [d|]; simpl; intros Hg; [|discriminate].
    injection Hg as <-. reflexivity.
Qed.

(** The sameSite attribute follows the lower-cased configured value. *)
Lemma sameSiteMode_spec (configured : string) :
  (sameSiteMode configured = fasthttp.CookieSameSiteStrictMode
     <-> utils.ToLower configured = "strict")
  /\ (sameSiteMode configured = fasthttp.CookieSameSiteNoneMode
     <-> utils.ToLower configured = "none")
  /\ (sameSiteMode configured = fasthttp.CookieSameSiteLaxMode
     <-> utils.ToLower configured <> "strict"
         /\ utils.ToLower configured <> "none").
Proof.
  unfold sameSiteMode.
  destruct (String.eqb_spec (utils.ToLower configured) "strict") as [E1|E1].
  - rewrite E1. repeat split; try discriminate; try congruence.
    intros [H _]. congruence.
  - destruct (String.eqb_spec (utils.ToLower configured) "none") as [E2|E2].
    + rewrite E2. repeat split; try discriminate; try congruence.
      intros [_ H]. congruence.
    + repeat split; try discriminate; try congruence.
Qed.

Example sameSiteMode_examples :
  sameSiteMode "STRICT" = fasthttp.CookieSameSiteStrictMode
  /\ sameSiteMode "None" = fasthttp.CookieSameSiteNoneMode
  /\ sameSiteMode "Lax" = fasthttp.CookieSameSiteLaxMode
  /\ sameSiteMode "anything" = fasthttp.CookieSameSiteLaxMode
  /\ sameSiteMode EmptyString = fasthttp.CookieSameSiteLaxMode.
Proof. repeat split. Qed.

(** X17. When Destroy succeeds on a context whose request cookies and
    pending response cookies hold one cookie per name at most, the cookie
    of the configured name is gone from the request cookies, and the
    response cookies hold one single cookie of that name, the revocation
    directive.  The directive carries the name, path and domain the issue
    directive carries (the configured name and domain, the configured
    path as fasthttp normalises it), maxAge -1 and an expiry one minute
    before the current time. *)
Theorem Destroy_revokes_unique_cookie
  (w w' : World) (s : loc) (o : Session) (cfg : Store) (c : loc) (x : Ctx) :
  sessions w !! s = Some o ->
  s_config o = Some cfg ->
  s_ctx o = Some c ->
  ctxs w !! c = Some x ->
  NoDup ((req_cookies x).*1) ->
  NoDup ((resp_cookies x).*1) ->
  Destroy s w = Done None w' ->
  exists x' fc,
    ctxs w' !! c = Some x'
    /\ (CookieName cfg ∉ (req_cookies x').*1)
    /\ fasthttp.peekArg (req_cookies x') (CookieName cfg) = None
    /\ fasthttp.peekArg (resp_cookies x') (CookieName cfg) = Some fc
    /\ (forall fc', (CookieName cfg, fc') ∈ resp_cookies x' -> fc' = fc)
    /\ fasthttp.key fc = CookieName cfg
    /\ fasthttp.path fc = normalizePath (CookiePath cfg)
    /\ fasthttp.domain fc = CookieDomain cfg
    /\ (forall id t,
          fasthttp.key (issued_cookie cfg id t) = fasthttp.key fc
          /\ fasthttp.path (issued_cookie cfg id t) = fasthttp.path fc
          /\ fasthttp.domain (issued_cookie cfg id t) = fasthttp.domain fc)
    /\ fasthttp.maxAge fc = (-1)%Z
    /\ fasthttp.expire fc = Some (now w - 60 * 1000000000)%Z.
Proof.
  intros Hs Hc Hx Hl Hreq Hresp H.
  destruct (Destroy_nil_inv w w' s o Hs H)
    as (d & cfg' & ext' & c' & x0 & Hd & Hc' & Hdel & Hx' & Hl' & ->).
  assert (cfg' = cfg) as -> by congruence.
  assert (c' = c) as -> by congruence.
  assert (x0 = x) as -> by congruence.
  exists (revoke cfg (now w) x), (expired_cookie cfg (now w)).
  pose proof (delAllArgs_unique (req_cookies x) (CookieName cfg) Hreq) as Hq.
  pose proof (delAllArgs_unique (resp_cookies x) (CookieName cfg) Hresp) as Hp.
  split; [apply lookup_insert_eq|].
  split; [exact Hq|].
  split; [apply peekArg_absent, Hq|].
  split; [apply peek_revoke|].
  split.
  { intros fc'. unfold revoke, Response_SetCookie. simpl.
    rewrite expired_cookie_fields. simpl.
    rewrite setArg_absent by (apply peekArg_absent, Hp).
    rewrite elem_of_app, list_elem_of_singleton.
    intros [Hin|Heq]; [|congruence].
    exfalso. apply Hp. apply list_elem_of_fmap.
    exists (CookieName cfg, fc'). split; [reflexivity|exact Hin]. }
  rewrite expired_cookie_fields. simpl.
  do 3 (split; [reflexivity|]).
  split; [intros id t; rewrite issued_cookie_fields; repeat split|].
  split; reflexivity.
Qed.

(** C9 (as amended). When Save succeeds on a non-empty record, the
    response of the session's context holds, under the configured cookie
    name, a cookie with the session identifier as value, the configured
    name, domain and httpOnly setting, the configured path as fasthttp
    normalises it, secure as configured unless sameSite is None, which
    forces secure to true, maxAge [int(Expiration.Seconds())], which for
    an expiration of a whole number of seconds is that number and for an
    expiration from zero up to 2^24 seconds is its whole seconds, the
    fraction dropped, expiry at the current time plus the expiration,
    and sameSite Strict or None
    exactly when the configured value lower-cases to "strict" or "none",
    Lax for anything else. *)
Theorem Save_issues_cookie
  (w : World) (s : loc) (o : Session) (d : db) (data : list Byte.byte)
  (cfg : Store) (ext' : Ext) (c : loc) (x : Ctx) :
  sessions w !! s = Some o ->
  s_db o = Some d ->
  (0 < db_Len d)%Z ->
  MarshalMsg d = (data, None) ->
  s_config o = Some cfg ->
  Storage_Set (Storage cfg) (s_id o) data (Expiration cfg) (ext w)
    = (None, ext') ->
  s_ctx o = Some c ->
  ctxs w !! c = Some x ->
  exists w' x' fc,
    Save s w = Done None w'
    /\ ctxs w' !! c = Some x'
    /\ resp_cookies x' = fasthttp.setArg (resp_cookies x) (CookieName cfg) fc
    /\ fasthttp.peekArg (resp_cookies x') (CookieName cfg) = Some fc
    /\ fasthttp.key fc = CookieName cfg
    /\ fasthttp.value fc = s_id o
    /\ fasthttp.path fc = normalizePath (CookiePath cfg)
    /\ fasthttp.domain fc = CookieDomain cfg
    /\ (utils.ToLower (CookieSameSite cfg) <> "none" ->
        fasthttp.secure fc = CookieSecure cfg)
    /\ (utils.ToLower (CookieSameSite cfg) = "none" ->
        fasthttp.secure fc = true)
    /\ fasthttp.httpOnly fc = CookieHTTPOnly cfg
    /\ fasthttp.maxAge fc = time.int_of_float64 (time.Seconds (Expiration cfg))
    /\ ((- 2 ^ 63 <= Expiration cfg < 2 ^ 63)%Z ->
        Z.rem (Expiration cfg) time.Second = 0%Z ->
        fasthttp.maxAge fc = Z.quot (Expiration cfg) time.Second)
    /\ ((0 <= Expiration cfg < 2 ^ 24 * time.Second)%Z ->
        fasthttp.maxAge fc = Z.quot (Expiration cfg) time.Second)
    /\ fasthttp.expire fc = Some (now w + Expiration cfg)%Z
    /\ (fasthttp.sameSite fc = fasthttp.CookieSameSiteStrictMode
          <-> utils.ToLower (CookieSameSite cfg) = "strict")
    /\ (fasthttp.sameSite fc = fasthttp.CookieSameSiteNoneMode
          <-> utils.ToLower (CookieSameSite cfg) = "none")
    /\ (fasthttp.sameSite fc = fasthttp.CookieSameSiteLaxMode
          <-> utils.ToLower (CookieSameSite cfg) <> "strict"
              /\ utils.ToLower (CookieSameSite cfg) <> "none").
Proof.
  intros Hs Hd Hlen Hm Hc Hset Hx Hl.
  eexists. exists (issue cfg (s_id o) (now w) x).
  exists (issued_cookie cfg (s_id o) (now w)).
  split; [eapply Save_done; eauto|].
  split; [apply lookup_insert_eq|].
  split; [unfold issue, Response_SetCookie; simpl;
          rewrite issued_cookie_fields; reflexivity|].
  split; [apply peek_issue|].
  rewrite issued_cookie_fields. simpl.
  pose proof (sameSiteMode_spec (CookieSameSite cfg)) as (Hst & Hno & Hlax).
  do 4 (split; [reflexivity|]).
  split.
  { intros Hne. unfold secure_flag.
    destruct (sameSiteMode (CookieSameSite cfg)) eqn:E; try reflexivity.
    exfalso. apply Hne, Hno. reflexivity. }
  split.
  { intros He. unfold secure_flag. apply Hno in He. rewrite He. reflexivity. }
  split; [reflexivity|]. split; [reflexivity|].
  split; [intros Hr Hz; apply Seconds_whole; assumption|].
  split; [intros Hr; apply Seconds_truncates; exact Hr|].
  split; [reflexivity|].
  split; [exact Hst|]. split; [exact Hno|exact Hlax].
Qed.

(** C6 (as amended). Fresh returns the freshness flag of the object.  A
    Destroy that returns (nil or an error) leaves the flag as it was, so
    an object that was fresh stays fresh; a Save that returns nil on a
    non-empty record has released the object, which sets the flag to
    true; and no Save turns a true flag into false. *)
Theorem Fresh_reads_flag (w : World) (s : loc) (o : Session) :
  sessions w !! s = Some o ->
  Fresh s w = Done (s_fresh o) w
  /\ (forall r w', Destroy s w = Done r w' ->
        Fresh s w' = Done (s_fresh o) w')
  /\ (forall d w', s_db o = Some d -> (0 < db_Len d)%Z ->
        Save s w = Done None w' ->
        Fresh s w' = Done true w')
  /\ (forall r w', Save s w = Done r w' -> s_fresh o = true ->
        Fresh s w' = Done true w').
Proof.
  intros Hs. split; [|split; [|split]].
  - unfold Fresh. exec. reflexivity.
  - intros r w' H. pose proof (Destroy_world w s) as [_ Hw].
    rewrite H in Hw. simpl in Hw. unfold Fresh. unfold_M.
    destruct Hw as [->|(o' & d & Hs' & ->)].
    + rewrite Hs. reflexivity.
    + rewrite lookup_insert_eq. simpl.
      replace o' with o by congruence. reflexivity.
  - intros d w' Hd Hlen H.
    destruct (Save_nil_inv w w' s o d Hs Hd Hlen H)
      as (data & cfg & ext' & c & x & _ & _ & _ & _ & _ & ->).
    unfold Fresh. exec. reflexivity.
  - intros r w' H Hf. pose proof (Save_world w s) as Hw.
    rewrite H in Hw. simpl in Hw. unfold Fresh. unfold_M.
    destruct Hw as [[-> _]|(o' & cfg & _ & _ & -> & _)].
    + rewrite Hs. simpl. rewrite Hf. reflexivity.
    + rewrite lookup_insert_eq. reflexivity.
Qed.

(** C7. Releasing a session object clears its request context and its
    Store reference to nil, sets its identifier to the empty string,
    resets its record (when it has one), sets its freshness flag to true,
    and puts the object into the pool.  Consequently, in every world a run
    of the package can reach, whatever the pool picks, acquireSession
    returns an object with an empty record (Len 0), Fresh true, no
    identifier, no Store reference and no request context, and that
    object is no longer in the pool. *)
Theorem pool_hands_out_clean_objects :
  (forall (w : World) (s : loc) (o : Session),
     sessions w !! s = Some o ->
     exists w' o',
       releaseSession s w = Done tt w'
       /\ sessions w' !! s = Some o'
       /\ s_ctx o' = None
       /\ s_config o' = None
       /\ s_id o' = EmptyString
       /\ s_db o' = match s_db o with
                    | Some d => Some []
                    | None => None
                    end
       /\ s_fresh o' = true
       /\ sessionPool w' = s :: sessionPool w)
  /\
  (forall (w : World) (pick : option nat),
     reachable w ->
     exists s w' o d,
       acquireSession pick w = Done s w'
       /\ sessions w' !! s = Some o
       /\ s_db o = Some d /\ db_Len d = 0%Z
       /\ Fresh s w' = Done true w'
       /\ s_id o = EmptyString
       /\ s_config o = None
       /\ s_ctx o = None
       /\ s ∉ sessionPool w').
Proof.
  split.
  - intros w s o Hs. eexists _, (released o).
    split; [apply releaseSession_done; exact Hs|].
    split; [apply lookup_insert_eq|].
    repeat split.
  - intros w pick Hr. apply pool_clean_reachable in Hr.
    destruct (acquireSession_clean w pick Hr)
      as (s & w' & o & Ha & Ho & Hd & Hf & Hi & Hc & Hx & Hnin & _).
    exists s, w', o, []. repeat split; try assumption.
    unfold Fresh. exec. reflexivity.
Qed.

(** ** Further properties of the lifecycle *)

(** The object a released session is left as. *)
Definition blank : Session := mkSession None None (Some []) EmptyString true.

(** The world after a Save that returned nil on a non-empty record: the
    object is [blank] and heads the pool. *)
Lemma Save_released_world (w w' : World) s o d :
  sessions w !! s = Some o ->
  s_db o = Some d ->
  (0 < db_Len d)%Z ->
  Save s w = Done None w' ->
  exists cs e,
    w' = mkWorld (<[s := blank]> (sessions w)) cs (s :: sessionPool w) e (now w).
Proof.
  intros Hs Hd Hlen H.
  destruct (Save_nil_inv w w' s o d Hs Hd Hlen H)
    as (data & cfg & ext' & c & x & _ & _ & _ & _ & _ & ->).
  eexists _, _. unfold set_sessionPool, set_sessions, released, blank. simpl.
  rewrite Hd. reflexivity.
Qed.

Lemma Save_on_empty (w : World) s o :
  sessions w !! s = Some o ->
  s_db o = Some [] ->
  Save s w = Done None w.
Proof. intros Hs Hd. unfold Save. exec. reflexivity. Qed.

Lemma Destroy_sessions (w : World) s o d :
  sessions w !! s = Some o ->
  s_db o = Some d ->
  sessions (world_of (Destroy s w)) = <[s := with_db (Some []) o]> (sessions w).
Proof.
  intros Hs Hd. unfold Destroy.
  destruct (s_config o) as [cfg|] eqn:Hc; [|exec; reflexivity].
  destruct (Storage_Delete (Storage cfg) (s_id o) (ext w))
    as [[e|] ext'] eqn:Hdel; [exec; reflexivity|].
  exec.
  match goal with
  | |- context [delCookie s ?W] =>
      pose proof (delCookie_frame W s) as [Hf _];
      destruct (delCookie s W) as [[] w2|w2]
  end; simpl in *; rewrite Hf; reflexivity.
Qed.

(** X1. A second Save on the same pointer, after a Save that returned nil
    on a non-empty record, returns nil and changes nothing: the record
    was reset by the release, so the guard on the empty record is taken;
    there is no second backend write and the object is not put into the
    pool a second time. *)
Theorem Save_twice_second_is_noop (w w' : World) (s : loc) (o : Session) (d : db) :
  sessions w !! s = Some o ->
  s_db o = Some d ->
  (0 < db_Len d)%Z ->
  Save s w = Done None w' ->
  Save s w' = Done None w'.
Proof.
  intros Hs Hd Hlen H.
  destruct (Save_released_world w w' s o d Hs Hd Hlen H) as (cs & e & ->).
  apply (Save_on_empty _ s blank); [apply lookup_insert_eq|reflexivity].
Qed.

(** X2. After a Save that returned nil on a non-empty record, the pointer
    the caller still holds denotes the released object: ID is the empty
    string, Fresh is true, every key reads as absent, and Regenerate and
    Destroy panic on the nil Store before any backend call, leaving the
    world as it is. *)
Theorem released_session_is_unusable (w w' : World) (s : loc) (o : Session) (d : db) :
  sessions w !! s = Some o ->
  s_db o = Some d ->
  (0 < db_Len d)%Z ->
  Save s w = Done None w' ->
  ID s w' = Done EmptyString w'
  /\ Fresh s w' = Done true w'
  /\ (forall k, Get s k w' = Done None w')
  /\ Regenerate s w' = Panic w'
  /\ Destroy s w' = Panic w'.
Proof.
  intros Hs Hd Hlen H.
  destruct (Save_released_world w w' s o d Hs Hd Hlen H) as (cs & e & ->).
  split; [unfold ID; exec; reflexivity|].
  split; [unfold Fresh; exec; reflexivity|].
  split; [intros k; unfold Get; exec; reflexivity|].
  split; [unfold Regenerate; exec; reflexivity|].
  unfold Destroy. exec. unfold set_sessions. simpl.
  rewrite insert_insert_eq. reflexivity.
Qed.

(** X3. The pool recycles the very object: after a Save that returned nil
    on a non-empty record, an acquisition that picks the head of the pool
    returns the same pointer, now with a new empty record and the
    freshness flag true, still without Store, context and identifier, and
    the pool is back to what it was before the Save. *)
Theorem Save_then_acquire_recycles_same_object
  (w w' : World) (s : loc) (o : Session) (d : db) :
  sessions w !! s = Some o ->
  s_db o = Some d ->
  (0 < db_Len d)%Z ->
  Save s w = Done None w' ->
  exists w'',
    acquireSession (Some 0%nat) w' = Done s w''
    /\ sessions w'' !! s = Some blank
    /\ sessionPool w'' = sessionPool w
    /\ (forall q, q <> s -> sessions w'' !! q = sessions w !! q).
Proof.
  intros Hs Hd Hlen H.
  destruct (Save_released_world w w' s o d Hs Hd Hlen H) as (cs & e & ->).
  eexists. split.
  - apply (acquireSession_recycled _ 0%nat s blank);
      [reflexivity|apply lookup_insert_eq].
  - simpl. split; [apply lookup_insert_eq|]. split; [reflexivity|].
    intros q Hq. rewrite !lookup_insert_ne by congruence. reflexivity.
Qed.

(** X4. What a caller writes through the pointer it kept after a
    successful Save does not reach the next owner: the Set lands in the
    record of the object that sits in the pool (and reads back through
    that pointer), and the acquisition replaces that record by a new one,
    so every key reads as absent in the object handed out. *)
Theorem stale_write_after_release_is_discarded
  (w w' : World) (s : loc) (o : Session) (d : db) (k : string) (v : V) :
  sessions w !! s = Some o ->
  s_db o = Some d ->
  (0 < db_Len d)%Z ->
  Save s w = Done None w' ->
  exists w1 w2,
    Set_ s k v w' = Done tt w1
    /\ s ∈ sessionPool w1
    /\ sessions w1 !! s = Some (with_db (Some (db_Set [] k v)) blank)
    /\ Get s k w1 = Done (Some v) w1
    /\ acquireSession (Some 0%nat) w1 = Done s w2
    /\ sessions w2 !! s = Some blank
    /\ (forall k', Get s k' w2 = Done None w2).
Proof.
  intros Hs Hd Hlen H.
  destruct (Save_released_world w w' s o d Hs Hd Hlen H) as (cs & e & ->).
  eexists _, _. split; [unfold Set_; exec; reflexivity|].
  split; [apply list_elem_of_here|].
  split; [apply lookup_insert_eq|].
  split; [unfold Get; exec; rewrite String.eqb_refl; reflexivity|].
  split.
  - eapply (acquireSession_recycled _ 0%nat s);
      [reflexivity|apply lookup_insert_eq].
  - simpl. split; [apply lookup_insert_eq|].
    intros k'. unfold Get. exec. reflexivity.
Qed.

(** [w'] differs from [w] at most in the record of the session [s]. *)
Definition same_but_record (s : loc) (w w' : World) : Prop :=
  ext w' = ext w
  /\ ctxs w' = ctxs w
  /\ sessionPool w' = sessionPool w
  /\ (forall q, q <> s -> sessions w' !! q = sessions w !! q)
  /\ (forall o, sessions w !! s = Some o ->
        exists o', sessions w' !! s = Some o'
          /\ s_id o' = s_id o
          /\ s_fresh o' = s_fresh o
          /\ s_config o' = s_config o
          /\ s_ctx o' = s_ctx o).

Lemma same_but_record_with_db (w : World) s o d' :
  sessions w !! s = Some o ->
  same_but_record s w (set_sessions (insert s (with_db d' o)) w).
Proof.
  intros Hs. unfold same_but_record. simpl.
  split; [reflexivity|]. split; [reflexivity|]. split; [reflexivity|].
  split.
  - intros q Hq. apply lookup_insert_ne. congruence.
  - intros o0 Ho0. replace o0 with o by congruence.
    exists (with_db d' o). rewrite lookup_insert_eq. auto.
Qed.

(** X5. Set and Delete on a session return without error and write
    nothing but the record of that session: no backend call is made, no
    cookie is written, the pool and every other session object are left
    alone, and the session keeps its identifier, freshness flag, Store
    and context.  Get changes nothing at all.  Edits therefore stay local
    until a Save. *)
Theorem record_edits_stay_local
  (w : World) (s : loc) (o : Session) (d : db) (k : string) (v : V) :
  sessions w !! s = Some o ->
  s_db o = Some d ->
  (exists w1, Set_ s k v w = Done tt w1 /\ same_but_record s w w1)
  /\ (exists w2, Delete s k w = Done tt w2 /\ same_but_record s w w2)
  /\ (exists r, Get s k w = Done r w).
Proof.
  intros Hs Hd. split; [|split].
  - eexists. split; [unfold Set_; exec; reflexivity|].
    apply same_but_record_with_db, Hs.
  - eexists. split; [unfold Delete; exec; reflexivity|].
    apply same_but_record_with_db, Hs.
  - eexists. unfold Get. exec. reflexivity.
Qed.

(** X6. Once Destroy has returned, with nil or with the backend's error,
    a Save on the same session returns nil and changes nothing: the
    record was reset before the backend was asked, so the destroyed
    session is neither written back to the backend nor released to the
    pool by that Save. *)
Theorem Destroy_then_Save_is_noop (w w' : World) (s : loc) (o : Session) (r : error) :
  sessions w !! s = Some o ->
  Destroy s w = Done r w' ->
  Save s w' = Done None w'.
Proof.
  intros Hs H.
  destruct (s_db o) as [d|] eqn:Hd;
    [|revert H; unfold Destroy; exec; discriminate].
  pose proof (Destroy_sessions w s o d Hs Hd) as Hw.
  rewrite H in Hw. simpl in Hw.
  apply (Save_on_empty w' s (with_db (Some []) o)); [|reflexivity].
  rewrite Hw. apply lookup_insert_eq.
Qed.

(** X7. A Save that failed on the backend's Set can be retried: the
    object is as it was, so when the backend accepts the write the second
    time, Save returns nil, the same bytes are stored under the same
    identifier, the cookie is issued with that identifier and the object
    is released. *)
Theorem Save_retry_after_backend_failure
  (w : World) (s : loc) (o : Session) (d : db) (data : list Byte.byte)
  (cfg : Store) (e : Err) (ext1 ext2 : Ext) (c : loc) (x : Ctx) :
  sessions w !! s = Some o ->
  s_db o = Some d ->
  (0 < db_Len d)%Z ->
  MarshalMsg d = (data, None) ->
  s_config o = Some cfg ->
  s_ctx o = Some c ->
  ctxs w !! c = Some x ->
  Storage_Set (Storage cfg) (s_id o) data (Expiration cfg) (ext w)
    = (Some e, ext1) ->
  Storage_Set (Storage cfg) (s_id o) data (Expiration cfg) ext1
    = (None, ext2) ->
  exists w1 w2 x',
    Save s w = Done (Some e) w1
    /\ Save s w1 = Done None w2
    /\ ext w2 = ext2
    /\ is_released s w2
    /\ ctxs w2 !! c = Some x'
    /\ fasthttp.peekArg (resp_cookies x') (CookieName cfg)
       = Some (issued_cookie cfg (s_id o) (now w)).
Proof.
  intros Hs Hd Hlen Hm Hc Hx Hl Hfail Hok.
  pose proof (db_Len_pos _ Hlen) as Hlen'.
  exists (set_ext ext1 w). eexists. exists (issue cfg (s_id o) (now w) x).
  split; [unfold Save; exec; reflexivity|].
  split; [apply (Save_done (set_ext ext1 w) s o d data cfg ext2 c x);
          assumption|].
  split; [reflexivity|]. split.
  - split; [apply list_elem_of_here|].
    exists (released o). simpl. rewrite lookup_insert_eq. unfold released.
    rewrite Hd. simpl. repeat split; try reflexivity.
    exists []. split; reflexivity.
  - split; [apply lookup_insert_eq|apply peek_issue].
Qed.

(** X8. Regenerate followed by Save persists the session under the new
    identifier: the backend sees, in this order, the Delete of the old
    identifier, the draw of the key generator and the Set of the record's
    bytes under the generated identifier, and the cookie issued to the
    client carries the generated identifier. *)
Theorem Regenerate_then_Save_uses_new_id
  (w : World) (s : loc) (o : Session) (d : db) (data : list Byte.byte)
  (cfg : Store) (id' : string) (ext1 ext2 ext3 : Ext) (c : loc) (x : Ctx) :
  sessions w !! s = Some o ->
  s_db o = Some d ->
  (0 < db_Len d)%Z ->
  MarshalMsg d = (data, None) ->
  s_config o = Some cfg ->
  s_ctx o = Some c ->
  ctxs w !! c = Some x ->
  Storage_Delete (Storage cfg) (s_id o) (ext w) = (None, ext1) ->
  KeyGenerator cfg ext1 = (id', ext2) ->
  Storage_Set (Storage cfg) id' data (Expiration cfg) ext2 = (None, ext3) ->
  exists w1 w2 x' fc,
    Regenerate s w = Done None w1
    /\ Save s w1 = Done None w2
    /\ ext w2 = ext3
    /\ ctxs w2 !! c = Some x'
    /\ fasthttp.peekArg (resp_cookies x') (CookieName cfg) = Some fc
    /\ fasthttp.value fc = id'.
Proof.
  intros Hs Hd Hlen Hm Hc Hx Hl Hdel Hgen Hset.
  eexists _, _, (issue cfg id' (now w) x), (issued_cookie cfg id' (now w)).
  split; [eapply Regenerate_done; eassumption|].
  split.
  - apply (Save_done _ s (with_id id' o) d data cfg ext3 c x);
      try assumption; apply lookup_insert_eq.
  - split; [reflexivity|]. split; [apply lookup_insert_eq|].
    split; [apply peek_issue|rewrite issued_cookie_fields; reflexivity].
Qed.

(** X9. A session object without Store (a released one, or one the pool
    has just made) never reaches the backend, the client or the pool:
    Save ends in the world it started in, Regenerate panics at once, and
    Destroy panics after at most resetting the record. *)
Theorem detached_session_never_reaches_backend (w : World) (s : loc) (o : Session) :
  sessions w !! s = Some o ->
  s_config o = None ->
  world_of (Save s w) = w
  /\ Regenerate s w = Panic w
  /\ (exists w', Destroy s w = Panic w'
        /\ ext w' = ext w
        /\ ctxs w' = ctxs w
        /\ sessionPool w' = sessionPool w
        /\ (forall q, q <> s -> sessions w' !! q = sessions w !! q)).
Proof.
  intros Hs Hc. split; [|split].
  - unfold Save.
    destruct (s_db o) as [d|] eqn:Hd; [|exec; reflexivity].
    destruct (db_Len d <=? 0)%Z eqn:Hlen; [exec; reflexivity|].
    destruct (MarshalMsg d) as [data [e|]] eqn:Hm; exec; reflexivity.
  - unfold Regenerate. exec. reflexivity.
  - unfold Destroy. destruct (s_db o) as [d|] eqn:Hd.
    + eexists. split; [exec; reflexivity|]. simpl.
      repeat split. intros q Hq. apply lookup_insert_ne. congruence.
    + exists w. split; [exec; reflexivity|]. auto.
Qed.

Lemma peekArg_delAllArgs_ne {A} (l : list (string * A)) k k' :
  k' <> k ->
  fasthttp.peekArg (fasthttp.delAllArgs l k) k' = fasthttp.peekArg l k'.
Proof.
  intros Hne.
  assert (H : forall n (l : list (string * A)), (length l <= n)%nat ->
            fasthttp.peekArg (fasthttp.delAllArgs l k) k'
            = fasthttp.peekArg l k').
  { clear l. induction n as [|n IH]; intros [|[k0 a] l] Hlen;
      simpl in *; try reflexivity; try lia.
    destruct (String.eqb_spec k k0) as [<-|Hk].
    - destruct (String.eqb_spec k' k) as [->|_]; [contradiction|].
      destruct l as [|[k1 a1] l]; [reflexivity|]. simpl.
      rewrite IH by (simpl in Hlen; lia). reflexivity.
    - simpl. rewrite IH by lia. reflexivity. }
  apply (H (length l)). lia.
Qed.

Lemma peekArg_setArg_ne {A} (l : list (string * A)) k k' a :
  k' <> k ->
  fasthttp.peekArg (fasthttp.setArg l k a) k' = fasthttp.peekArg l k'.
Proof.
  intros Hne. induction l as [|[k0 a0] l IH]; simpl.
  - destruct (String.eqb_spec k' k); [contradiction|reflexivity].
  - destruct (String.eqb_spec k k0) as [<-|Hk]; simpl.
    + destruct (String.eqb_spec k' k); [contradiction|reflexivity].
    + rewrite IH. reflexivity.
Qed.

(** X10. A successful Destroy touches no cookie but the session cookie:
    in the session's context every request cookie and every pending
    response cookie of another name reads as before, and no other
    context is written. *)
Theorem Destroy_keeps_other_cookies
  (w w' : World) (s : loc) (o : Session) (cfg : Store) (c : loc) (x : Ctx) :
  sessions w !! s = Some o ->
  s_config o = Some cfg ->
  s_ctx o = Some c ->
  ctxs w !! c = Some x ->
  Destroy s w = Done None w' ->
  exists x',
    ctxs w' !! c = Some x'
    /\ (forall k, k <> CookieName cfg ->
          fasthttp.peekArg (req_cookies x') k = fasthttp.peekArg (req_cookies x) k
          /\ fasthttp.peekArg (resp_cookies x') k
             = fasthttp.peekArg (resp_cookies x) k)
    /\ (forall c', c' <> c -> ctxs w' !! c' = ctxs w !! c').
Proof.
  intros Hs Hc Hx Hl H.
  destruct (Destroy_nil_inv w w' s o Hs H)
    as (d & cfg' & ext' & c' & x0 & Hd & Hc' & Hdel & Hx' & Hl' & ->).
  assert (cfg' = cfg) as -> by congruence.
  assert (c' = c) as -> by congruence.
  assert (x0 = x) as -> by congruence.
  exists (revoke cfg (now w) x).
  split; [apply lookup_insert_eq|]. split.
  - intros k Hk. unfold revoke, Response_SetCookie. simpl. split.
    + apply peekArg_delAllArgs_ne, Hk.
    + rewrite expired_cookie_fields. simpl.
      rewrite peekArg_setArg_ne by exact Hk.
      apply peekArg_delAllArgs_ne, Hk.
  - intros c1 Hc1. simpl. apply lookup_insert_ne. congruence.
Qed.

(** X11. A successful Save of a non-empty record leaves the request
    cookies of the session's context as they are, changes no pending
    response cookie of another name, and writes no other context. *)
Theorem Save_keeps_other_cookies
  (w w' : World) (s : loc) (o : Session) (d : db) (cfg : Store) (c : loc) (x : Ctx) :
  sessions w !! s = Some o ->
  s_db o = Some d ->
  (0 < db_Len d)%Z ->
  s_config o = Some cfg ->
  s_ctx o = Some c ->
  ctxs w !! c = Some x ->
  Save s w = Done None w' ->
  exists x',
    ctxs w' !! c = Some x'
    /\ req_cookies x' = req_cookies x
    /\ (forall k, k <> CookieName cfg ->
          fasthttp.peekArg (resp_cookies x') k
          = fasthttp.peekArg (resp_cookies x) k)
    /\ (forall c', c' <> c -> ctxs w' !! c' = ctxs w !! c').
Proof.
  intros Hs Hd Hlen Hc Hx Hl H.
  destruct (Save_nil_inv w w' s o d Hs Hd Hlen H)
    as (data & cfg' & ext' & c' & x0 & _ & Hc' & _ & Hx' & Hl' & ->).
  assert (cfg' = cfg) as -> by congruence.
  assert (c' = c) as -> by congruence.
  assert (x0 = x) as -> by congruence.
  exists (issue cfg (s_id o) (now w) x).
  split; [apply lookup_insert_eq|]. split; [reflexivity|]. split.
  - intros k Hk. unfold issue, Response_SetCookie. simpl.
    rewrite issued_cookie_fields. simpl.
    apply peekArg_setArg_ne, Hk.
  - intros c1 Hc1. simpl. apply lookup_insert_ne. congruence.
Qed.

(** X12. In every world a run of the package can reach, no object is in
    the pool twice, and a Save through a pointer to a pooled object leaves
    the pool as it is: an object is released once per hand-out at
    most. *)
Theorem no_double_release (w : World) :
  reachable w ->
  NoDup (sessionPool w)
  /\ (forall p, p ∈ sessionPool w ->
        sessionPool (world_of (Save p w)) = sessionPool w).
Proof.
  intros Hr. apply pool_clean_reachable in Hr. destruct Hr as [Hnd Hall].
  split; [exact Hnd|].
  intros p Hin. destruct (Hall p Hin) as (o & Ho & _ & Hc & _).
  destruct (Save_world w p) as [[_ Hp]|(o' & cfg & Ho' & Hc' & _)];
    [exact Hp|congruence].
Qed.

(** X13. A Destroy that failed on the backend's Delete can be retried:
    the first call returns the error having emptied the record and
    written no cookie; when the backend then accepts the Delete of the
    same identifier, the second call returns nil and the response of the
    session's context holds, under the configured name, the revocation
    directive (no value, maxAge -1, expiry one minute before the current
    time). *)
Theorem Destroy_retry_after_backend_failure
  (w : World) (s : loc) (o : Session) (d : db) (cfg : Store) (e : Err)
  (ext1 ext2 : Ext) (c : loc) (x : Ctx) :
  sessions w !! s = Some o ->
  s_db o = Some d ->
  s_config o = Some cfg ->
  s_ctx o = Some c ->
  ctxs w !! c = Some x ->
  Storage_Delete (Storage cfg) (s_id o) (ext w) = (Some e, ext1) ->
  Storage_Delete (Storage cfg) (s_id o) ext1 = (None, ext2) ->
  exists w1 w2 x' fc,
    Destroy s w = Done (Some e) w1
    /\ sessions w1 !! s = Some (with_db (Some []) o)
    /\ (forall k, Get s k w1 = Done None w1)
    /\ ctxs w1 = ctxs w
    /\ Destroy s w1 = Done None w2
    /\ ext w2 = ext2
    /\ ctxs w2 !! c = Some x'
    /\ fasthttp.peekArg (resp_cookies x') (CookieName cfg) = Some fc
    /\ fasthttp.key fc = CookieName cfg
    /\ fasthttp.value fc = EmptyString
    /\ fasthttp.maxAge fc = (-1)%Z
    /\ fasthttp.expire fc = Some (now w - 60 * 1000000000)%Z.
Proof.
  intros Hs Hd Hc Hx Hl Hfail Hok.
  eexists _, _, (revoke cfg (now w) x), (expired_cookie cfg (now w)).
  split; [eapply Destroy_failed; eassumption|].
  split; [apply lookup_insert_eq|].
  split; [intros k; unfold Get; exec; reflexivity|].
  split; [reflexivity|].
  split.
  - eapply (Destroy_done _ s (with_db (Some []) o) [] cfg ext2 c x);
      try assumption; try reflexivity. apply lookup_insert_eq.
  - split; [reflexivity|]. split; [apply lookup_insert_eq|].
    split; [apply peek_revoke|].
    rewrite expired_cookie_fields. repeat split.
Qed.

(** X14. Two Regenerates in a row: the second deletes from the backend
    the identifier the first one generated, and the session ends with the
    identifier of the second draw. *)
Theorem Regenerate_twice
  (w : World) (s : loc) (o : Session) (cfg : Store)
  (id1 id2 : string) (ext1 ext2 ext3 ext4 : Ext) :
  sessions w !! s = Some o ->
  s_config o = Some cfg ->
  Storage_Delete (Storage cfg) (s_id o) (ext w) = (None, ext1) ->
  KeyGenerator cfg ext1 = (id1, ext2) ->
  Storage_Delete (Storage cfg) id1 ext2 = (None, ext3) ->
  KeyGenerator cfg ext3 = (id2, ext4) ->
  exists w1 w2,
    Regenerate s w = Done None w1
    /\ ID s w1 = Done id1 w1
    /\ Regenerate s w1 = Done None w2
    /\ ID s w2 = Done id2 w2
    /\ ext w2 = ext4.
Proof.
  intros Hs Hc Hd1 Hg1 Hd2 Hg2.
  eexists _, _.
  split; [eapply Regenerate_done; eassumption|].
  split; [unfold ID; exec; reflexivity|].
  split.
  - eapply (Regenerate_done _ s (with_id id1 o) cfg ext3 id2 ext4);
      try assumption. apply lookup_insert_eq.
  - split; [unfold ID; exec; reflexivity|reflexivity].
Qed.

(** X15. When the pool has nothing to give (or is not asked),
    acquireSession allocates: the pointer it returns denoted no session
    object before, the object behind it is blank, and neither the pool
    nor any existing session object is touched. *)
Theorem acquireSession_allocates (w : World) (pick : option nat) :
  match pick with
  | Some i => sessionPool w !! i = None
  | None => True
  end ->
  exists s w',
    acquireSession pick w = Done s w'
    /\ sessions w !! s = None
    /\ sessions w' !! s = Some blank
    /\ sessionPool w' = sessionPool w
    /\ (forall q, q <> s -> sessions w' !! q = sessions w !! q).
Proof.
  intros Hpick. eexists _, _.
  split; [apply acquireSession_new; exact Hpick|].
  split.
  - apply not_elem_of_dom. apply is_fresh.
  - simpl. split; [apply lookup_insert_eq|]. split; [reflexivity|].
    intros q Hq. apply lookup_insert_ne. congruence.
Qed.

(** X16. Destroy does not release: when it returns, with nil or with an
    error, the pool is as before and the object keeps its identifier, its
    Store, its context and its freshness flag; only Save gives an object
    back to the pool. *)
Theorem Destroy_keeps_session_attached
  (w w' : World) (s : loc) (o : Session) (r : error) :
  sessions w !! s = Some o ->
  Destroy s w = Done r w' ->
  sessionPool w' = sessionPool w
  /\ sessions w' !! s = Some (with_db (Some []) o)
  /\ ID s w' = Done (s_id o) w'.
Proof.
  intros Hs H.
  destruct (s_db o) as [d|] eqn:Hd;
    [|revert H; unfold Destroy; exec; discriminate].
  pose proof (Destroy_sessions w s o d Hs Hd) as Hw.
  pose proof (Destroy_world w s) as [Hp _].
  rewrite H in Hw, Hp. simpl in Hw, Hp.
  assert (Hl : sessions w' !! s = Some (with_db (Some []) o))
    by (rewrite Hw; apply lookup_insert_eq).
  split; [exact Hp|]. split; [exact Hl|].
  unfold ID. unfold_M. rewrite Hl. reflexivity.
Qed.

End Model.

Arguments Done {V Err Ext A} a w.
Arguments Panic {V Err Ext A} w.

(** ** A concrete instance

    String values and errors, an in-memory backend that can be switched
    to failing, a key generator that counts, and an encoder that refuses
    one value. *)

Record Mem := mkMem {
  mem_data : gmap string (list Byte.byte);
  mem_down : bool;
  mem_next : nat
}.

Definition mem_Set (id : string) (data : list Byte.byte) (ttl : time.Duration)
    (m : Mem) : option string * Mem :=
  if mem_down m then (Some "storage unavailable", m)
  else (None, mkMem (<[id := data]> (mem_data m)) (mem_down m) (mem_next m)).

Definition mem_Delete (id : string) (m : Mem) : option string * Mem :=
  if mem_down m then (Some "storage unavailable", m)
  else (None, mkMem (delete id (mem_data m)) (mem_down m) (mem_next m)).

Fixpoint tally (n : nat) : string :=
  match n with
  | O => EmptyString
  | S k => String "i" (tally k)
  end.

Definition mem_KeyGenerator (m : Mem) : string * Mem :=
  (String.append "sid-" (tally (mem_next m)),
   mkMem (mem_data m) (mem_down m) (S (mem_next m))).

Definition mem_Storage : @fiber_Storage string Mem := mkStorage mem_Set mem_Delete.

Definition encode (d : @db string) : list Byte.byte * option string :=
  if existsb (fun kv => String.eqb (snd kv) "unencodable") d
  then ([], Some "msgp: type not supported")
  else (concat (map (fun kv => (list_byte_of_string (fst kv)
                                ++ list_byte_of_string (snd kv))%list) d),
        None).

Definition day : time.Duration := 86400 * time.Second.

(** A stand-in for fasthttp's path normaliser: it puts a slash in front
    of a path that has none. *)
Definition npath (p : string) : string :=
  match p with
  | String "/" _ => p
  | _ => String "/" p
  end.

Definition cfg0 : @Store string Mem :=
  mkStore day mem_Storage "session_id" "example.com" "/app" true true
          "Strict" mem_KeyGenerator.

Definition stale : fasthttp.Cookie :=
  fasthttp.SetValue (fasthttp.SetKey fasthttp.AcquireCookie "session_id") "abc".

Definition x0 : Ctx :=
  mkCtx [("theme", "dark"); ("session_id", "abc")]
        [("session_id", stale); ("lang", fasthttp.AcquireCookie)].

Definition s0 : loc := 1%positive.
Definition c0 : loc := 1%positive.

Definition mem0 : Mem := mkMem ∅ false 0.
Definition mem_failing : Mem := mkMem ∅ true 0.

Definition o_active : @Session string string Mem :=
  mkSession (Some c0) (Some cfg0) (Some [("user", "alice")]) "abc" true.
Definition o_empty : @Session string string Mem :=
  mkSession (Some c0) (Some cfg0) (Some []) "abc" true.
Definition o_refused : @Session string string Mem :=
  mkSession (Some c0) (Some cfg0) (Some [("conn", "unencodable")]) "abc" true.

Definition world_with (o : @Session string string Mem) (m : Mem)
  : @World string string Mem :=
  mkWorld {[ s0 := o ]} {[ c0 := x0 ]} [] m 1000.

Definition w_active := world_with o_active mem0.
Definition w_empty := world_with o_empty mem0.
Definition w_refused := world_with o_refused mem0.
Definition w_down := world_with o_active mem_failing.

Definition w_saved := world_of (Save npath encode s0 w_active).
Definition w_destroyed := world_of (Destroy npath s0 w_active).
Definition w_regenerated := world_of (Regenerate s0 w_active).

(** A first request cycle from nothing: the Store hands out a new
    session, the caller stores a value and saves. *)
Definition w_init : @World string string Mem :=
  mkWorld ∅ {[ c0 := x0 ]} [] mem0 1000.
Definition w_cycle1 : @World string string Mem :=
  run_op npath encode (OpSave s0)
    (run_op npath encode (OpSet s0 "user" "alice")
       (run_op npath encode (OpStoreGet cfg0 c0 None "abc" true []) w_init)).

(** Two request cycles as a caller writes them: get a new session, store
    a value, then Destroy (or Save), then ask whether it is fresh. *)
Definition cycle_Destroy : M (option string * bool) :=
  sess ← Store_Get cfg0 c0 None "abc" true [];
  Set_ sess "user" "alice" ;;
  err ← Destroy npath sess;
  f ← Fresh sess;
  mret (err, f).

Definition cycle_Save : M (option string * bool) :=
  sess ← Store_Get cfg0 c0 None "abc" true [];
  Set_ sess "user" "alice" ;;
  err ← Save npath encode sess;
  f ← Fresh sess;
  mret (err, f).

(** ** The properties at the concrete instance *)

Lemma Save_empty_record_is_noop_witness :
  sessions w_empty !! s0 = Some o_empty
  /\ s_db o_empty = Some []
  /\ db_Len (@nil (string * string)) = 0%Z
  /\ Save npath encode s0 w_empty = Done None w_empty.
Proof.
  split; [reflexivity|]. split; [reflexivity|]. split; [reflexivity|].
  apply (Save_empty_record_is_noop npath encode w_empty s0 o_empty []);
    reflexivity.
Defined.

Lemma Save_failure_keeps_session_witness :
  Save npath encode s0 w_refused = Done (Some "msgp: type not supported") w_refused
  /\ exists w', Save npath encode s0 w_down = Done (Some "storage unavailable") w'
       /\ sessions w' = sessions w_down
       /\ ctxs w' = ctxs w_down
       /\ sessionPool w' = sessionPool w_down
       /\ ext w' = mem_failing.
Proof.
  split.
  - apply (proj1 (Save_failure_keeps_session npath encode w_refused s0 o_refused
                    [("conn", "unencodable")] eq_refl eq_refl eq_refl)
             []).
    reflexivity.
  - apply (proj2 (Save_failure_keeps_session npath encode w_down s0 o_active
                    [("user", "alice")] eq_refl eq_refl eq_refl)
             (fst (encode [("user", "alice")])) cfg0).
    + reflexivity.
    + reflexivity.
    + reflexivity.
Defined.

(** C3, as the claim has it, fails on an empty record: Save returns nil,
    and the object is not in the pool and keeps its identifier and its
    Store. *)
Lemma Save_nil_without_release :
  Save npath encode s0 w_empty = Done None w_empty
  /\ ~ is_released s0 w_empty
  /\ ID s0 w_empty = Done "abc" w_empty
  /\ sessionPool w_empty = [].
Proof.
  split; [vm_compute; reflexivity|].
  split; [|split; reflexivity].
  intros [Hin _]. simpl in Hin. apply elem_of_nil in Hin. exact Hin.
Qed.

Lemma Save_nonempty_success_releases_witness :
  Save npath encode s0 w_active = Done None w_saved
  /\ is_released s0 w_saved.
Proof.
  assert (H : Save npath encode s0 w_active = Done None w_saved)
    by (vm_compute; reflexivity).
  split; [exact H|].
  apply (Save_nonempty_success_releases npath encode w_active w_saved s0 o_active
           [("user", "alice")]).
  - reflexivity.
  - reflexivity.
  - reflexivity.
  - exact H.
Defined.

Lemma Regenerate_rotates_or_keeps_witness :
  (exists w', Regenerate s0 w_down = Done (Some "storage unavailable") w'
     /\ sessions w' = sessions w_down
     /\ ID s0 w' = Done "abc" w')
  /\ (exists w', Regenerate s0 w_active = Done None w'
     /\ sessions w' = <[s0 := with_id "sid-" o_active]> (sessions w_active)
     /\ ID s0 w' = Done "sid-" w').
Proof.
  split.
  - apply (proj1 (Regenerate_rotates_or_keeps w_down s0 o_active cfg0
                    eq_refl eq_refl)
             "storage unavailable" mem_failing).
    reflexivity.
  - apply (proj2 (Regenerate_rotates_or_keeps w_active s0 o_active cfg0
                    eq_refl eq_refl)
             (mkMem ∅ false 0) "sid-" (mkMem ∅ false 1)).
    + reflexivity.
    + reflexivity.
Defined.

Lemma Destroy_resets_then_deletes_witness :
  (exists w', Destroy npath s0 w_down = Done (Some "storage unavailable") w'
     /\ sessions w' = <[s0 := with_db (Some []) o_active]> (sessions w_down)
     /\ ctxs w' = ctxs w_down)
  /\ (exists w' x' fc, Destroy npath s0 w_active = Done None w'
     /\ sessions w' = <[s0 := with_db (Some []) o_active]> (sessions w_active)
     /\ ctxs w' !! c0 = Some x'
     /\ fasthttp.peekArg (resp_cookies x') "session_id" = Some fc
     /\ fasthttp.key fc = "session_id"
     /\ fasthttp.value fc = EmptyString
     /\ fasthttp.maxAge fc = (-1)%Z
     /\ fasthttp.expire fc = Some (1000 - 60000000000)%Z).
Proof.
  pose proof (Destroy_resets_then_deletes npath w_down s0 o_active
                [("user", "alice")] eq_refl eq_refl) as (_ & Hfail & _).
  pose proof (Destroy_resets_then_deletes npath w_active s0 o_active
                [("user", "alice")] eq_refl eq_refl) as (_ & _ & Hok).
  split.
  - apply (Hfail cfg0 "storage unavailable" mem_failing); reflexivity.
  - apply (Hok cfg0 (mkMem ∅ false 0) c0 x0); reflexivity.
Defined.

(** C6, as the claim has it, fails: on the active session with a stored
    value, Destroy returns nil and Fresh answers true afterwards, and the
    same holds for Save; likewise for the whole cycle from a Store handing
    out a new session. *)
Lemma Fresh_true_after_commit :
  (Destroy npath s0 w_active = Done None w_destroyed
   /\ Fresh s0 w_destroyed = Done true w_destroyed)
  /\ (Save npath encode s0 w_active = Done None w_saved
      /\ Fresh s0 w_saved = Done true w_saved)
  /\ (exists w', cycle_Destroy w_init = Done (None, true) w')
  /\ (exists w', cycle_Save w_init = Done (None, true) w').
Proof.
  split; [split; vm_compute; reflexivity|].
  split; [split; vm_compute; reflexivity|].
  split; eexists; vm_compute; reflexivity.
Qed.

Lemma Fresh_reads_flag_witness :
  Fresh s0 w_active = Done true w_active
  /\ Fresh s0 w_destroyed = Done true w_destroyed
  /\ Fresh s0 w_saved = Done true w_saved.
Proof.
  pose proof (Fresh_reads_flag npath encode w_active s0 o_active eq_refl)
    as (H1 & H2 & H3 & _).
  split; [exact H1|]. split.
  - apply (H2 None). vm_compute. reflexivity.
  - apply (H3 [("user", "alice")]).
    + reflexivity.
    + reflexivity.
    + vm_compute. reflexivity.
Defined.

Lemma pool_hands_out_clean_objects_witness :
  sessionPool w_cycle1 = [s0]
  /\ exists s w' o d,
       acquireSession (Some 0%nat) w_cycle1 = Done s w'
       /\ sessions w' !! s = Some o
       /\ s_db o = Some d /\ db_Len d = 0%Z
       /\ Fresh s w' = Done true w'
       /\ s_id o = EmptyString
       /\ s_config o = None
       /\ s_ctx o = None
       /\ s ∉ sessionPool w'.
Proof.
  split; [vm_compute; reflexivity|].
  apply (proj2 (pool_hands_out_clean_objects npath encode)).
  exists w_init. split; [split; reflexivity|].
  unfold w_cycle1.
  eapply rtc_r; [|apply step_op].
  eapply rtc_r; [|apply step_op].
  eapply rtc_r; [|apply step_op].
  apply rtc_refl.
Defined.




Lemma x0_keys_unique :
  NoDup ((req_cookies x0).*1) /\ NoDup ((resp_cookies x0).*1).
Proof.
  split; apply (bool_decide_unpack _); vm_compute; exact I.
Qed.

Lemma Destroy_revokes_unique_cookie_witness :
  exists x' fc,
    ctxs w_destroyed !! c0 = Some x'
    /\ ("session_id" ∉ (req_cookies x').*1)
    /\ fasthttp.peekArg (req_cookies x') "session_id" = None
    /\ fasthttp.peekArg (resp_cookies x') "session_id" = Some fc
    /\ (forall fc', ("session_id", fc') ∈ resp_cookies x' -> fc' = fc)
    /\ fasthttp.key fc = "session_id"
    /\ fasthttp.path fc = "/app"
    /\ fasthttp.domain fc = "example.com"
    /\ (forall id t,
          fasthttp.key (issued_cookie npath cfg0 id t) = fasthttp.key fc
          /\ fasthttp.path (issued_cookie npath cfg0 id t) = fasthttp.path fc
          /\ fasthttp.domain (issued_cookie npath cfg0 id t) = fasthttp.domain fc)
    /\ fasthttp.maxAge fc = (-1)%Z
    /\ fasthttp.expire fc = Some (1000 - 60000000000)%Z.
Proof.
  apply (Destroy_revokes_unique_cookie npath w_active w_destroyed s0 o_active
           cfg0 c0 x0 eq_refl eq_refl eq_refl eq_refl
           (proj1 x0_keys_unique) (proj2 x0_keys_unique)).
  vm_compute. reflexivity.
Defined.

(** Configurations that differ from [cfg0] in the secure flag and the
    sameSite value, and in the expiration. *)
Definition cfg_with (exp : time.Duration) (sec : bool) (same : string)
  : @Store string Mem :=
  mkStore exp mem_Storage "session_id" "example.com" "/app" sec true same
          mem_KeyGenerator.

Definition w_with (cfg : @Store string Mem) : @World string string Mem :=
  world_with
    (mkSession (Some c0) (Some cfg) (Some [("user", "alice")]) "abc" true)
    mem0.

(** The cookie a Save leaves under the session cookie's name in the
    response of the context [c0]. *)
Definition saved_cookie (cfg : @Store string Mem) : option fasthttp.Cookie :=
  match Save npath encode s0 (w_with cfg) with
  | Done None w' =>
      match ctxs w' !! c0 with
      | Some x' => fasthttp.peekArg (resp_cookies x') "session_id"
      | None => None
      end
  | _ => None
  end.

(** C9, as the claim has it, fails.  With sameSite configured as "None"
    and secure configured as false, the cookie a successful Save issues
    is secure.  And maxAge is not the expiration in whole seconds under
    one rule of rounding: an expiration of 1.5 s gives 1, and one of
    16777216.999999999 s gives 16777217. *)
Lemma Save_cookie_not_as_configured :
  (CookieSecure (cfg_with day false "None") = false
   /\ fasthttp.secure <$> saved_cookie (cfg_with day false "None") = Some true)
  /\ fasthttp.maxAge <$> saved_cookie (cfg_with 1500000000 true "Lax")
     = Some 1%Z
  /\ fasthttp.maxAge <$> saved_cookie (cfg_with 16777216999999999 true "Lax")
     = Some 16777217%Z.
Proof.
  split; [split; [reflexivity|vm_compute; reflexivity]|].
  split; vm_compute; reflexivity.
Qed.

Lemma Save_issues_cookie_witness :
  exists w' x' fc,
    Save npath encode s0 w_active = Done None w'
    /\ ctxs w' !! c0 = Some x'
    /\ fasthttp.peekArg (resp_cookies x') "session_id" = Some fc
    /\ fasthttp.value fc = "abc"
    /\ fasthttp.path fc = "/app"
    /\ fasthttp.secure fc = true
    /\ fasthttp.maxAge fc = 86400%Z
    /\ fasthttp.expire fc = Some (1000 + 86400000000000)%Z
    /\ fasthttp.sameSite fc = fasthttp.CookieSameSiteStrictMode.
Proof.
  destruct (Save_issues_cookie npath encode w_active s0 o_active
              [("user", "alice")] (fst (encode [("user", "alice")]))
              cfg0 (snd (mem_Set "abc" (fst (encode [("user", "alice")]))
                           day mem0))
              c0 x0
              eq_refl eq_refl eq_refl eq_refl eq_refl eq_refl eq_refl eq_refl)
    as (w' & x' & fc & HS & Hl & _ & Hpeek & _ & Hval & Hpath & _ & Hsec & _
        & _ & _ & Hwhole & _ & Hexp & Hstrict & _).
  exists w', x', fc.
  split; [exact HS|]. split; [exact Hl|]. split; [exact Hpeek|].
  split; [exact Hval|]. split; [exact Hpath|].
  split; [apply Hsec; discriminate|].
  split; [apply Hwhole; [split; [discriminate|reflexivity]|reflexivity]|].
  split; [exact Hexp|].
  apply Hstrict. reflexivity.
Defined.

Lemma Regenerate_changes_only_id_witness :
  Regenerate s0 w_active = Done None w_regenerated
  /\ ID s0 w_regenerated = Done "sid-" w_regenerated
  /\ Get s0 "user" w_regenerated = Done (Some "alice") w_regenerated
  /\ Fresh s0 w_regenerated = Done true w_regenerated
  /\ ctxs w_regenerated = ctxs w_active
  /\ sessionPool w_regenerated = sessionPool w_active.
Proof.
  assert (H : Regenerate s0 w_active = Done None w_regenerated)
    by (vm_compute; reflexivity).
  split; [exact H|].
  destruct (Regenerate_changes_only_id w_active w_regenerated s0 o_active
              eq_refl H)
    as (_ & _ & Hc & Hp & Hget).
  split; [vm_compute; reflexivity|].
  split; [apply Hget; reflexivity|].
  split; [vm_compute; reflexivity|].
  split; [exact Hc|exact Hp].
Defined.

(** ** The further properties at the concrete instance *)

(** A backend with a transient outage: a call that finds it down fails
    and finds it up again the next time. *)
Definition flaky_Set (id : string) (data : list Byte.byte) (ttl : time.Duration)
    (m : Mem) : option string * Mem :=
  if mem_down m
  then (Some "storage unavailable", mkMem (mem_data m) false (mem_next m))
  else mem_Set id data ttl m.

Definition flaky_Delete (id : string) (m : Mem) : option string * Mem :=
  if mem_down m
  then (Some "storage unavailable", mkMem (mem_data m) false (mem_next m))
  else mem_Delete id m.

Definition cfg_flaky : @Store string Mem :=
  mkStore day (mkStorage flaky_Set flaky_Delete) "session_id" "example.com"
          "/app" true true "Strict" mem_KeyGenerator.

Definition o_flaky : @Session string string Mem :=
  mkSession (Some c0) (Some cfg_flaky) (Some [("user", "alice")]) "abc" true.

Definition w_flaky := world_with o_flaky mem_failing.

Definition alice : @db string := [("user", "alice")].

Lemma w_cycle1_reachable : reachable npath encode w_cycle1.
Proof.
  exists w_init. split; [split; reflexivity|].
  unfold w_cycle1.
  eapply rtc_r; [|apply step_op].
  eapply rtc_r; [|apply step_op].
  eapply rtc_r; [|apply step_op].
  apply rtc_refl.
Qed.

Lemma Save_active_saved : Save npath encode s0 w_active = Done None w_saved.
Proof. vm_compute. reflexivity. Qed.

Lemma Destroy_active_destroyed : Destroy npath s0 w_active = Done None w_destroyed.
Proof. vm_compute. reflexivity. Qed.

Lemma Save_twice_second_is_noop_witness :
  Save npath encode s0 w_active = Done None w_saved
  /\ Save npath encode s0 w_saved = Done None w_saved.
Proof.
  split; [exact Save_active_saved|].
  apply (Save_twice_second_is_noop npath encode w_active w_saved s0 o_active alice);
    [reflexivity|reflexivity|reflexivity|exact Save_active_saved].
Defined.

Lemma released_session_is_unusable_witness :
  ID s0 w_saved = Done EmptyString w_saved
  /\ Fresh s0 w_saved = Done true w_saved
  /\ (forall k, Get s0 k w_saved = Done None w_saved)
  /\ Regenerate s0 w_saved = Panic w_saved
  /\ Destroy npath s0 w_saved = Panic w_saved.
Proof.
  apply (released_session_is_unusable npath encode w_active w_saved s0 o_active alice);
    [reflexivity|reflexivity|reflexivity|exact Save_active_saved].
Defined.

Lemma Save_then_acquire_recycles_same_object_witness :
  exists w'',
    acquireSession (Some 0%nat) w_saved = Done s0 w''
    /\ sessions w'' !! s0 = Some blank
    /\ sessionPool w'' = sessionPool w_active
    /\ (forall q, q <> s0 -> sessions w'' !! q = sessions w_active !! q).
Proof.
  apply (Save_then_acquire_recycles_same_object npath encode w_active w_saved s0
           o_active alice);
    [reflexivity|reflexivity|reflexivity|exact Save_active_saved].
Defined.

Lemma stale_write_after_release_is_discarded_witness :
  exists w1 w2,
    Set_ s0 "user" "mallory" w_saved = Done tt w1
    /\ s0 ∈ sessionPool w1
    /\ sessions w1 !! s0 = Some (with_db (Some (db_Set [] "user" "mallory")) blank)
    /\ Get s0 "user" w1 = Done (Some "mallory") w1
    /\ acquireSession (Some 0%nat) w1 = Done s0 w2
    /\ sessions w2 !! s0 = Some blank
    /\ (forall k', Get s0 k' w2 = Done None w2).
Proof.
  apply (stale_write_after_release_is_discarded npath encode w_active w_saved s0
           o_active alice "user" "mallory");
    [reflexivity|reflexivity|reflexivity|exact Save_active_saved].
Defined.

Lemma record_edits_stay_local_witness :
  (exists w1, Set_ s0 "cart" "3" w_active = Done tt w1
              /\ same_but_record s0 w_active w1)
  /\ (exists w2, Delete s0 "cart" w_active = Done tt w2
                 /\ same_but_record s0 w_active w2)
  /\ (exists r, Get s0 "cart" w_active = Done r w_active).
Proof.
  apply (record_edits_stay_local w_active s0 o_active alice "cart" "3");
    reflexivity.
Defined.

Lemma Destroy_then_Save_is_noop_witness :
  Destroy npath s0 w_active = Done None w_destroyed
  /\ Save npath encode s0 w_destroyed = Done None w_destroyed.
Proof.
  split; [exact Destroy_active_destroyed|].
  apply (Destroy_then_Save_is_noop npath encode w_active w_destroyed s0 o_active None);
    [reflexivity|exact Destroy_active_destroyed].
Defined.

Lemma Save_retry_after_backend_failure_witness :
  exists w1 w2 x',
    Save npath encode s0 w_flaky = Done (Some "storage unavailable") w1
    /\ Save npath encode s0 w1 = Done None w2
    /\ ext w2 = snd (mem_Set "abc" (fst (encode alice)) day mem0)
    /\ is_released s0 w2
    /\ ctxs w2 !! c0 = Some x'
    /\ fasthttp.peekArg (resp_cookies x') "session_id"
       = Some (issued_cookie npath cfg_flaky "abc" 1000).
Proof.
  apply (Save_retry_after_backend_failure npath encode w_flaky s0 o_flaky alice
           (fst (encode alice)) cfg_flaky "storage unavailable" mem0
           (snd (mem_Set "abc" (fst (encode alice)) day mem0)) c0 x0);
    reflexivity.
Defined.

Lemma Regenerate_then_Save_uses_new_id_witness :
  exists w1 w2 x' fc,
    Regenerate s0 w_active = Done None w1
    /\ Save npath encode s0 w1 = Done None w2
    /\ ext w2 = snd (mem_Set "sid-" (fst (encode alice)) day (mkMem ∅ false 1))
    /\ ctxs w2 !! c0 = Some x'
    /\ fasthttp.peekArg (resp_cookies x') "session_id" = Some fc
    /\ fasthttp.value fc = "sid-".
Proof.
  apply (Regenerate_then_Save_uses_new_id npath encode w_active s0 o_active alice
           (fst (encode alice)) cfg0 "sid-" mem0 (mkMem ∅ false 1)
           (snd (mem_Set "sid-" (fst (encode alice)) day (mkMem ∅ false 1)))
           c0 x0);
    reflexivity.
Defined.

Lemma detached_session_never_reaches_backend_witness :
  sessions w_saved !! s0 = Some blank
  /\ world_of (Save npath encode s0 w_saved) = w_saved
  /\ Regenerate s0 w_saved = Panic w_saved
  /\ (exists w', Destroy npath s0 w_saved = Panic w'
        /\ ext w' = ext w_saved
        /\ ctxs w' = ctxs w_saved
        /\ sessionPool w' = sessionPool w_saved
        /\ (forall q, q <> s0 -> sessions w' !! q = sessions w_saved !! q)).
Proof.
  assert (H : sessions w_saved !! s0 = Some blank) by (vm_compute; reflexivity).
  split; [exact H|].
  apply (detached_session_never_reaches_backend npath encode w_saved s0 blank);
    [exact H|reflexivity].
Defined.

Lemma Destroy_keeps_other_cookies_witness :
  exists x',
    ctxs w_destroyed !! c0 = Some x'
    /\ (forall k, k <> "session_id" ->
          fasthttp.peekArg (req_cookies x') k = fasthttp.peekArg (req_cookies x0) k
          /\ fasthttp.peekArg (resp_cookies x') k
             = fasthttp.peekArg (resp_cookies x0) k)
    /\ (forall c', c' <> c0 -> ctxs w_destroyed !! c' = ctxs w_active !! c').
Proof.
  apply (Destroy_keeps_other_cookies npath w_active w_destroyed s0 o_active cfg0 c0 x0);
    [reflexivity|reflexivity|reflexivity|reflexivity
    |exact Destroy_active_destroyed].
Defined.

Lemma Save_keeps_other_cookies_witness :
  exists x',
    ctxs w_saved !! c0 = Some x'
    /\ req_cookies x' = req_cookies x0
    /\ (forall k, k <> "session_id" ->
          fasthttp.peekArg (resp_cookies x') k
          = fasthttp.peekArg (resp_cookies x0) k)
    /\ (forall c', c' <> c0 -> ctxs w_saved !! c' = ctxs w_active !! c').
Proof.
  apply (Save_keeps_other_cookies npath encode w_active w_saved s0 o_active alice
           cfg0 c0 x0);
    [reflexivity|reflexivity|reflexivity|reflexivity|reflexivity|reflexivity
    |exact Save_active_saved].
Defined.

Lemma no_double_release_witness :
  sessionPool w_cycle1 = [s0]
  /\ NoDup (sessionPool w_cycle1)
  /\ (forall p, p ∈ sessionPool w_cycle1 ->
        sessionPool (world_of (Save npath encode p w_cycle1)) = sessionPool w_cycle1).
Proof.
  split; [vm_compute; reflexivity|].
  apply (no_double_release npath encode w_cycle1). exact w_cycle1_reachable.
Defined.

Lemma Destroy_retry_after_backend_failure_witness :
  exists w1 w2 x' fc,
    Destroy npath s0 w_flaky = Done (Some "storage unavailable") w1
    /\ sessions w1 !! s0 = Some (with_db (Some []) o_flaky)
    /\ (forall k, Get s0 k w1 = Done None w1)
    /\ ctxs w1 = ctxs w_flaky
    /\ Destroy npath s0 w1 = Done None w2
    /\ ext w2 = mem0
    /\ ctxs w2 !! c0 = Some x'
    /\ fasthttp.peekArg (resp_cookies x') "session_id" = Some fc
    /\ fasthttp.key fc = "session_id"
    /\ fasthttp.value fc = EmptyString
    /\ fasthttp.maxAge fc = (-1)%Z
    /\ fasthttp.expire fc = Some (1000 - 60000000000)%Z.
Proof.
  apply (Destroy_retry_after_backend_failure npath w_flaky s0 o_flaky alice
           cfg_flaky "storage unavailable" mem0 mem0 c0 x0);
    reflexivity.
Defined.

Lemma Regenerate_twice_witness :
  exists w1 w2,
    Regenerate s0 w_active = Done None w1
    /\ ID s0 w1 = Done "sid-" w1
    /\ Regenerate s0 w1 = Done None w2
    /\ ID s0 w2 = Done "sid-i" w2
    /\ ext w2 = mkMem ∅ false 2.
Proof.
  apply (Regenerate_twice w_active s0 o_active cfg0 "sid-" "sid-i"
           mem0 (mkMem ∅ false 1) (mkMem ∅ false 1) (mkMem ∅ false 2));
    reflexivity.
Defined.

Lemma acquireSession_allocates_witness :
  exists s w',
    acquireSession (Some 3%nat) w_active = Done s w'
    /\ sessions w_active !! s = None
    /\ sessions w' !! s = Some blank
    /\ sessionPool w' = sessionPool w_active
    /\ (forall q, q <> s -> sessions w' !! q = sessions w_active !! q).
Proof.
  apply (acquireSession_allocates w_active (Some 3%nat)). reflexivity.
Defined.

Lemma Destroy_keeps_session_attached_witness :
  sessionPool w_destroyed = sessionPool w_active
  /\ sessions w_destroyed !! s0 = Some (with_db (Some []) o_active)
  /\ ID s0 w_destroyed = Done "abc" w_destroyed.
Proof.
  apply (Destroy_keeps_session_attached npath w_active w_destroyed s0 o_active None);
    [reflexivity|exact Destroy_active_destroyed].
Defined.

End session.
